(** * Config flow of the PVPC Updated integration

    A shallow embedding of
    [custom_components/pvpc_updated/config_flow.py]: the options flow
    handler [PVPCOptionsFlowHandler] and the setup / re-authentication
    flow [TariffSelectorConfigFlow], followed by the properties the
    specification states about them.

    Python values that travel through the forms are kept dynamically
    typed ([Value]); a [dict] is a [gmap string Value]; a handler is a
    function in a state-and-exception monad over the handler object. *)

From Stdlib Require Import QArith.
From stdpp Require Import gmap strings list fin_maps.

Local Open Scope string_scope.

(** ** Python values and dictionaries *)

(** The values the forms carry: [None], [bool], [str] and [float]. The
    handlers only store, compare with [None] and pass on the powers,
    so a float is kept as the rational it denotes. *)
Inductive Value : Type :=
| VNone
| VBool (b : bool)
| VStr (s : string)
| VFloat (q : Q).

(** [bool(v)]: the truth value Python gives to [v] in an [if]. *)
Definition truthy (v : Value) : bool :=
  match v with
  | VNone => false
  | VBool b => b
  | VStr s => negb (String.eqb s "")
  | VFloat q => negb (Qeq_bool q 0)
  end.

(** [v is not None] *)
Definition is_not_None (v : Value) : bool :=
  match v with
  | VNone => false
  | _ => true
  end.

(** [d.get(k, dflt)] *)
Definition dict_get (d : gmap string Value) (k : string) (dflt : Value) : Value :=
  default dflt (d !! k).

(** [bool(d)] for a dictionary: it is not empty. *)
Definition dict_truthy (d : gmap string Value) : bool :=
  negb (Nat.eqb (size d) 0).

(** ** Exceptions and the handler monad *)

Inductive Exn : Type :=
| KeyError (k : string)
| AbortFlow (reason : string)
| AssertionError
| AttributeError
| UnknownStep.

(** A handler runs on its object's state [S]; an exception leaves the
    assignments made before it in place, as in Python. *)
Definition M (S A : Type) : Type := S -> (Exn + A) * S.

Definition ret {S A} (a : A) : M S A := fun s => (inr a, s).

Definition raise {S A} (e : Exn) : M S A := fun s => (inl e, s).

Definition bind {S A B} (c : M S A) (k : A -> M S B) : M S B :=
  fun s =>
    match c s with
    | (inl e, s') => (inl e, s')
    | (inr a, s') => k a s'
    end.

Definition get_self {S} : M S S := fun s => (inr s, s).

Definition modify {S} (f : S -> S) : M S unit := fun s => (inr tt, f s).

Notation "x <~ c ;; k" := (bind c (fun x => k))
  (at level 100, c at next level, right associativity).
Notation "c ;;; k" := (bind c (fun _ => k))
  (at level 100, right associativity).

(** [d[k]]: raises [KeyError] when the key is absent. *)
Definition getitem {S} (d : gmap string Value) (k : string) : M S Value :=
  match d !! k with
  | Some v => ret v
  | None => raise (KeyError k)
  end.

(** ** Forms, schemas and flow results *)

(** The validators the schemas name. [VALID_POWER] and [VALID_TARIFF]
    come from [const.py]; the handlers only pass them on. *)
Inductive Validator : Type :=
| v_str
| v_bool
| VALID_POWER
| VALID_TARIFF.

Inductive Marker : Type :=
| Required
| Optional.

(** One [vol.Required(key, default=...): validator] line of a schema. *)
Record SchemaKey : Type := mkKey {
  marker : Marker;
  key : string;
  key_default : Value;
  validator : Validator
}.

Definition Schema : Type := list SchemaKey.

(** What a step handler returns to the host: the three host calls
    [async_show_form], [async_create_entry] and
    [async_update_reload_and_abort], with the arguments the handler
    passes. *)
Inductive FlowResult : Type :=
| FORM (step_id : string) (data_schema : option Schema)
       (errors : gmap string string)
       (description_placeholders : gmap string string)
| CREATE_ENTRY (title : Value) (data : gmap string Value)
| UPDATE_RELOAD_ABORT (entry : option string) (data : gmap string Value).

(** ** Constants *)

(** [homeassistant.const] *)
Definition CONF_NAME : string := "name".
Definition CONF_API_TOKEN : string := "api_token".
Definition SOURCE_USER : string := "user".
Definition SOURCE_REAUTH : string := "reauth".

(** Modelled from the spec: the key names of [const.py], which is not
    among the sources; the specification calls the fields name, tariff
    id, power, power_p3, api_token and use_api_token. *)
Definition ATTR_POWER : string := "power".
Definition ATTR_POWER_P3 : string := "power_p3".
Definition ATTR_TARIFF : string := "tariff".
Definition CONF_USE_API_TOKEN : string := "use_api_token".

Definition _MAIL_TO_LINK : string :=
  "[consultasios@ree.es](mailto:consultasios@ree.es?subject=Personal%20token%20request)".

(** ** The host's configuration entries *)

(** A stored configuration record. [entry_data] holds name, tariff,
    powers and token; [entry_options] what the options flow saved. *)
Record ConfigEntry : Type := mkEntry {
  entry_id : string;
  entry_unique_id : Value;
  entry_title : Value;
  entry_data : gmap string Value;
  entry_options : gmap string Value
}.

#[global] Instance Q_eq_dec : EqDecision Q.
Proof. solve_decision. Defined.

#[global] Instance Value_eq_dec : EqDecision Value.
Proof. solve_decision. Defined.

(** ** The world a handler runs in *)

(** One call of the token validator: when, with which token, and what
    it answered. *)
Record CheckCall : Type := mkCall {
  call_time : Z;
  call_token : Value;
  call_ok : bool
}.

(** The handler object [self] together with what it can reach: the
    host's stored entries ([self.hass]) and the clock. [calls] and
    [steps] are ghost logs: the validator calls made so far and the
    names of the handlers entered so far, oldest first. *)
Record World (Obj : Type) : Type := mkWorld {
  self : Obj;
  hass : list ConfigEntry;
  clock : Z;
  calls : list CheckCall;
  steps : list string
}.

Arguments mkWorld {Obj} _ _ _ _ _.
Arguments self {Obj} _.
Arguments hass {Obj} _.
Arguments clock {Obj} _.
Arguments calls {Obj} _.
Arguments steps {Obj} _.

Definition set_self {Obj} (f : Obj -> Obj) (w : World Obj) : World Obj :=
  mkWorld (f (self w)) (hass w) (clock w) (calls w) (steps w).

Definition add_call {Obj} (c : CheckCall) (w : World Obj) : World Obj :=
  mkWorld (self w) (hass w) (clock w) (calls w ++ [c]) (steps w).

Definition add_step {Obj} (name : string) (w : World Obj) : World Obj :=
  mkWorld (self w) (hass w) (clock w) (calls w) (steps w ++ [name]).

Definition set_clock {Obj} (now : Z) (w : World Obj) : World Obj :=
  mkWorld (self w) (hass w) now (calls w) (steps w).

(** Entering a handler (ghost). *)
Definition enter {Obj} (name : string) : M (World Obj) unit :=
  modify (add_step name).

(** [self.x = v] *)
Definition assign {Obj} (f : Obj -> Obj) : M (World Obj) unit :=
  modify (set_self f).

(** [dt_util.utcnow()] *)
Definition utcnow {Obj} : M (World Obj) Z :=
  fun w => (inr (clock w), w).

(** ** The options flow *)

Module PVPCOptionsFlowHandler.

Record t : Type := mk {
  _power : Value;
  _power_p3 : Value;
  config_entry : ConfigEntry
}.

(** The class attributes: both powers start as [None]. *)
Definition new (entry : ConfigEntry) : t := mk VNone VNone entry.

Definition set_power (v : Value) (o : t) : t :=
  mk v (_power_p3 o) (config_entry o).

Definition set_power_p3 (v : Value) (o : t) : t :=
  mk (_power o) v (config_entry o).

(** The token the entry holds: [options.get(CONF_API_TOKEN,
    data.get(CONF_API_TOKEN))]. *)
Definition stored_token (e : ConfigEntry) : Value :=
  dict_get (entry_options e) CONF_API_TOKEN
           (dict_get (entry_data e) CONF_API_TOKEN VNone).

Definition api_token_schema (default_token : Value) : Schema :=
  [mkKey Required CONF_API_TOKEN default_token v_str].

(** [async_step_api_token] *)
Definition async_step_api_token (user_input : option (gmap string Value))
  : M (World t) FlowResult :=
  enter "api_token" ;;;
  w <~ get_self ;;
  let api_token :=
    match user_input with
    | Some d => if dict_truthy d then dict_get d CONF_API_TOKEN VNone else VNone
    | None => VNone
    end in
  if bool_decide (user_input <> None) && truthy api_token then
    ret (CREATE_ENTRY (VStr "")
           {[ ATTR_POWER := _power (self w);
              ATTR_POWER_P3 := _power_p3 (self w);
              CONF_API_TOKEN := api_token ]})
  else
    let default_token := stored_token (config_entry (self w)) in
    ret (FORM "api_token" (Some (api_token_schema default_token)) ∅
           {[ "mail_to_link" := _MAIL_TO_LINK ]}).

Definition init_schema (e : ConfigEntry) : Schema :=
  let options := entry_options e in
  let data := entry_data e in
  let power := dict_get options ATTR_POWER (dict_get data ATTR_POWER VNone) in
  let power_p3 := dict_get options ATTR_POWER_P3 (dict_get data ATTR_POWER_P3 VNone) in
  let api_token := stored_token e in
  let use_api_token := is_not_None api_token in
  [mkKey Required ATTR_POWER power VALID_POWER;
   mkKey Required ATTR_POWER_P3 power_p3 VALID_POWER;
   mkKey Required CONF_USE_API_TOKEN (VBool use_api_token) v_bool].

(** [async_step_init] *)
Definition async_step_init (user_input : option (gmap string Value))
  : M (World t) FlowResult :=
  enter "init" ;;;
  w <~ get_self ;;
  let schema := init_schema (config_entry (self w)) in
  match user_input with
  | Some d =>
      power <~ getitem d ATTR_POWER ;;
      assign (set_power power) ;;;
      power_p3 <~ getitem d ATTR_POWER_P3 ;;
      assign (set_power_p3 power_p3) ;;;
      use <~ getitem d CONF_USE_API_TOKEN ;;
      if truthy use then async_step_api_token user_input
      else
        w' <~ get_self ;;
        ret (CREATE_ENTRY (VStr "")
               {[ ATTR_POWER := _power (self w');
                  ATTR_POWER_P3 := _power_p3 (self w');
                  CONF_API_TOKEN := VNone ]})
  | None => ret (FORM "init" (Some schema) ∅ ∅)
  end.

End PVPCOptionsFlowHandler.

(** ** The setup and re-authentication flow *)

Module TariffSelectorConfigFlow.

(** [PVPCData(session=...)]: the client object the flow keeps once
    it has made it. *)
Inductive PVPCData : Type := mkPVPCData.

Record t : Type := mk {
  _name : Value;
  _tariff : Value;
  _power : Value;
  _power_p3 : Value;
  _use_api_token : Value;
  _api_token : Value;
  _api : option PVPCData;
  source : string;
  unique_id : Value
}.

(** The class attributes of a fresh flow started from [src]. *)
Definition new (src : string) : t :=
  mk VNone VNone VNone VNone (VBool false) VNone None src VNone.

Definition set_name (v : Value) (o : t) : t :=
  mk v (_tariff o) (_power o) (_power_p3 o) (_use_api_token o)
     (_api_token o) (_api o) (source o) (unique_id o).

Definition set_tariff (v : Value) (o : t) : t :=
  mk (_name o) v (_power o) (_power_p3 o) (_use_api_token o)
     (_api_token o) (_api o) (source o) (unique_id o).

Definition set_power (v : Value) (o : t) : t :=
  mk (_name o) (_tariff o) v (_power_p3 o) (_use_api_token o)
     (_api_token o) (_api o) (source o) (unique_id o).

Definition set_power_p3 (v : Value) (o : t) : t :=
  mk (_name o) (_tariff o) (_power o) v (_use_api_token o)
     (_api_token o) (_api o) (source o) (unique_id o).

Definition set_use_api_token (v : Value) (o : t) : t :=
  mk (_name o) (_tariff o) (_power o) (_power_p3 o) v
     (_api_token o) (_api o) (source o) (unique_id o).

Definition set_api_token (v : Value) (o : t) : t :=
  mk (_name o) (_tariff o) (_power o) (_power_p3 o) (_use_api_token o)
     v (_api o) (source o) (unique_id o).

Definition set_api (a : option PVPCData) (o : t) : t :=
  mk (_name o) (_tariff o) (_power o) (_power_p3 o) (_use_api_token o)
     (_api_token o) a (source o) (unique_id o).

Definition set_unique_id (v : Value) (o : t) : t :=
  mk (_name o) (_tariff o) (_power o) (_power_p3 o) (_use_api_token o)
     (_api_token o) (_api o) (source o) v.

(** The record the flow commits, built from its fields; the token is
    [self._api_token if self._use_api_token else None]. *)
Definition record_of (o : t) : gmap string Value :=
  {[ CONF_NAME := _name o;
     ATTR_TARIFF := _tariff o;
     ATTR_POWER := _power o;
     ATTR_POWER_P3 := _power_p3 o;
     CONF_API_TOKEN := if truthy (_use_api_token o) then _api_token o else VNone ]}.

(** Modelled from the spec: the host's [async_set_unique_id], which
    is not among the sources; it records the id in the flow's
    context. *)
Definition async_set_unique_id (uid : Value) : M (World t) unit :=
  assign (set_unique_id uid).

(** Modelled from the spec: the host's
    [_abort_if_unique_id_configured], which is not among the sources;
    it aborts the flow when a stored record already carries the
    flow's unique id. *)
Definition _abort_if_unique_id_configured : M (World t) unit :=
  w <~ get_self ;;
  if existsb (fun e => bool_decide (entry_unique_id e = unique_id (self w)))
             (hass w)
  then raise (AbortFlow "already_configured")
  else ret tt.

Section Flow.

(** Modelled from the spec: the token validator
    [check(timestamp, token) -> bool] of the client in
    [aiopvpc], which is not among the sources. *)
Variable check_api_token : Z -> Value -> bool.

(** The defaults of the first form, from [const.py] and
    [aiopvpc]. *)
Variables DEFAULT_NAME DEFAULT_TARIFF DEFAULT_POWER_KW : Value.

(** [await self._api.check_api_token(now, token)], logged. *)
Definition call_check (now : Z) (token : Value) : M (World t) bool :=
  let ok := check_api_token now token in
  modify (add_call (mkCall now token ok)) ;;;
  ret ok.

(** [_async_verify]. The last act of each branch is a host call; the
    result records that call with the arguments the handler passes,
    [None] for the entry in a re-authentication. What the host makes
    of the call, its failure on the entry [None] included, is
    [persist_config]; the statements about this step do not depend on
    the call returning. *)
Definition _async_verify (step_id : string) : M (World t) FlowResult :=
  enter "_async_verify" ;;;
  w <~ get_self ;;
  auth_ok <~ (if truthy (_use_api_token (self w)) then
                (match _api (self w) with
                 | None => assign (set_api (Some mkPVPCData))
                 | Some _ => ret tt
                 end) ;;;
                now <~ utcnow ;;
                call_check now (_api_token (self w))
              else ret true) ;;
  if negb auth_ok then
    ret (FORM step_id None {[ "base" := "invalid_auth" ]} ∅)
  else
    w' <~ get_self ;;
    let data := record_of (self w') in
    if String.eqb (source (self w')) SOURCE_REAUTH then
      ret (UPDATE_RELOAD_ABORT None data)
    else if is_not_None (_name (self w')) then
      ret (CREATE_ENTRY (_name (self w')) data)
    else raise AssertionError.

Definition api_token_schema (default_token : Value) : Schema :=
  [mkKey Required CONF_API_TOKEN default_token v_str].

(** [async_step_api_token] *)
Definition async_step_api_token (user_input : option (gmap string Value))
  : M (World t) FlowResult :=
  enter "api_token" ;;;
  match user_input with
  | Some d =>
      token <~ getitem d CONF_API_TOKEN ;;
      assign (set_api_token token) ;;;
      _async_verify "api_token"
  | None =>
      w <~ get_self ;;
      ret (FORM "api_token" (Some (api_token_schema (_api_token (self w)))) ∅
             {[ "mail_to_link" := _MAIL_TO_LINK ]})
  end.

Definition user_schema : Schema :=
  [mkKey Required CONF_NAME DEFAULT_NAME v_str;
   mkKey Required ATTR_TARIFF DEFAULT_TARIFF VALID_TARIFF;
   mkKey Required ATTR_POWER DEFAULT_POWER_KW VALID_POWER;
   mkKey Required ATTR_POWER_P3 DEFAULT_POWER_KW VALID_POWER;
   mkKey Required CONF_USE_API_TOKEN (VBool false) v_bool].

(** [async_step_user] *)
Definition async_step_user (user_input : option (gmap string Value))
  : M (World t) FlowResult :=
  enter "user" ;;;
  match user_input with
  | Some d =>
      uid <~ getitem d ATTR_TARIFF ;;
      async_set_unique_id uid ;;;
      _abort_if_unique_id_configured ;;;
      name <~ getitem d CONF_NAME ;;
      assign (set_name name) ;;;
      tariff <~ getitem d ATTR_TARIFF ;;
      assign (set_tariff tariff) ;;;
      power <~ getitem d ATTR_POWER ;;
      assign (set_power power) ;;;
      power_p3 <~ getitem d ATTR_POWER_P3 ;;
      assign (set_power_p3 power_p3) ;;;
      use <~ getitem d CONF_USE_API_TOKEN ;;
      assign (set_use_api_token use) ;;;
      if truthy use then async_step_api_token None
      else
        w <~ get_self ;;
        ret (CREATE_ENTRY (_name (self w))
               {[ CONF_NAME := _name (self w);
                  ATTR_TARIFF := _tariff (self w);
                  ATTR_POWER := _power (self w);
                  ATTR_POWER_P3 := _power_p3 (self w);
                  CONF_API_TOKEN := VNone ]})
  | None => ret (FORM "user" (Some user_schema) ∅ ∅)
  end.

Definition reauth_schema (o : t) : Schema :=
  [mkKey Required CONF_USE_API_TOKEN (_use_api_token o) v_bool;
   mkKey Optional CONF_API_TOKEN (_api_token o) v_str].

(** [async_step_reauth_confirm] *)
Definition async_step_reauth_confirm (user_input : option (gmap string Value))
  : M (World t) FlowResult :=
  enter "reauth_confirm" ;;;
  w <~ get_self ;;
  let schema := reauth_schema (self w) in
  match user_input with
  | Some d =>
      if dict_truthy d then
        assign (set_api_token (dict_get d CONF_API_TOKEN VNone)) ;;;
        use <~ getitem d CONF_USE_API_TOKEN ;;
        assign (set_use_api_token use) ;;;
        _async_verify "reauth_confirm"
      else ret (FORM "reauth_confirm" (Some schema) ∅ ∅)
  | None => ret (FORM "reauth_confirm" (Some schema) ∅ ∅)
  end.

(** [async_step_reauth] *)
Definition async_step_reauth (entry_data : gmap string Value)
  : M (World t) FlowResult :=
  enter "reauth" ;;;
  let token := dict_get entry_data CONF_API_TOKEN VNone in
  assign (set_api_token token) ;;;
  assign (set_use_api_token (VBool (is_not_None token))) ;;;
  name <~ getitem entry_data CONF_NAME ;;
  assign (set_name name) ;;;
  tariff <~ getitem entry_data ATTR_TARIFF ;;
  assign (set_tariff tariff) ;;;
  power <~ getitem entry_data ATTR_POWER ;;
  assign (set_power power) ;;;
  power_p3 <~ getitem entry_data ATTR_POWER_P3 ;;
  assign (set_power_p3 power_p3) ;;;
  async_step_reauth_confirm None.

End Flow.

End TariffSelectorConfigFlow.

(** ** The host: flow manager and entry store *)

(** Where a flow stands between two calls of the host. *)
Inductive Status : Type :=
| AtStep (cur_step : string)
| Committed (r : FlowResult)
| Aborted (reason : string).

Record Flow (Obj : Type) : Type := mkFlow {
  world : World Obj;
  status : Status
}.

Arguments mkFlow {Obj} _ _.
Arguments world {Obj} _.
Arguments status {Obj} _.

(** Modelled from the spec: the host's flow manager, which is not
    among the sources. A form suspends the flow at its step id, any
    other result ends it, [AbortFlow] ends it as an abort, and any
    other exception is reported to the caller and leaves the flow
    where it was. *)
Definition settle {Obj} (cur_step : string)
  (out : (Exn + FlowResult) * World Obj) : Flow Obj :=
  match out with
  | (inr (FORM step_id _ _ _), w) => mkFlow w (AtStep step_id)
  | (inr r, w) => mkFlow w (Committed r)
  | (inl (AbortFlow reason), w) => mkFlow w (Aborted reason)
  | (inl _, w) => mkFlow w (AtStep cur_step)
  end.

(** Modelled from the spec: how the host persists what a flow returns.
    A record created by the setup flow is appended under the flow's
    unique id; an update replaces the data of the entry it names and
    fails when it names none; the options flow saves its data as the
    options of its entry. Forms leave the store alone. *)
Definition replace_data (id : string) (data : gmap string Value)
  (e : ConfigEntry) : ConfigEntry :=
  if String.eqb (entry_id e) id
  then mkEntry (entry_id e) (entry_unique_id e) (entry_title e) data (entry_options e)
  else e.

Definition replace_options (id : string) (options : gmap string Value)
  (e : ConfigEntry) : ConfigEntry :=
  if String.eqb (entry_id e) id
  then mkEntry (entry_id e) (entry_unique_id e) (entry_title e) (entry_data e) options
  else e.

Definition persist_config (new_id : string) (uid : Value) (r : FlowResult)
  (store : list ConfigEntry) : Exn + list ConfigEntry :=
  match r with
  | FORM _ _ _ _ => inr store
  | CREATE_ENTRY title data => inr (store ++ [mkEntry new_id uid title data ∅])%list
  | UPDATE_RELOAD_ABORT (Some id) data => inr (map (replace_data id data) store)
  | UPDATE_RELOAD_ABORT None _ => inl AttributeError
  end.

Definition persist_options (e : ConfigEntry) (r : FlowResult)
  (store : list ConfigEntry) : list ConfigEntry :=
  match r with
  | CREATE_ENTRY _ data => map (replace_options (entry_id e) data) store
  | _ => store
  end.

Module Host.

Import TariffSelectorConfigFlow.

Section Manager.

Variable check_api_token : Z -> Value -> bool.
Variables DEFAULT_NAME DEFAULT_TARIFF DEFAULT_POWER_KW : Value.

(** [getattr(flow, f"async_step_{step_id}")(user_input)] *)
Definition handle (step_id : string) (user_input : option (gmap string Value))
  : M (World t) FlowResult :=
  if String.eqb step_id "user" then
    async_step_user check_api_token DEFAULT_NAME DEFAULT_TARIFF
                    DEFAULT_POWER_KW user_input
  else if String.eqb step_id "api_token" then
    async_step_api_token check_api_token user_input
  else if String.eqb step_id "reauth_confirm" then
    async_step_reauth_confirm check_api_token user_input
  else raise UnknownStep.

(** The host resumes a suspended flow with the user's input at
    time [now]. *)
Definition configure (f : Flow t) (ev : Z * option (gmap string Value)) : Flow t :=
  match status f with
  | AtStep cur_step =>
      settle cur_step (handle cur_step (snd ev) (set_clock (fst ev) (world f)))
  | _ => f
  end.

(** A setup flow is started from the user source with no input. *)
Definition start_setup (store : list ConfigEntry) (now : Z) : Flow t :=
  settle "user"
    (async_step_user check_api_token DEFAULT_NAME DEFAULT_TARIFF DEFAULT_POWER_KW
       None (mkWorld (new SOURCE_USER) store now [] [])).

(** A re-authentication flow is started by the host on a stored
    entry, with that entry's data. *)
Definition start_reauth (store : list ConfigEntry) (e : ConfigEntry) (now : Z) : Flow t :=
  settle "reauth"
    (async_step_reauth check_api_token (entry_data e)
       (mkWorld (new SOURCE_REAUTH) store now [] [])).

(** A whole session: the inputs the user submits, in order. *)
Definition run (f : Flow t) (evs : list (Z * option (gmap string Value))) : Flow t :=
  fold_left configure evs f.

End Manager.

(** The options flow, driven the same way. *)
Definition handle_options (step_id : string) (user_input : option (gmap string Value))
  : M (World PVPCOptionsFlowHandler.t) FlowResult :=
  if String.eqb step_id "init" then
    PVPCOptionsFlowHandler.async_step_init user_input
  else if String.eqb step_id "api_token" then
    PVPCOptionsFlowHandler.async_step_api_token user_input
  else raise UnknownStep.

Definition configure_options (f : Flow PVPCOptionsFlowHandler.t)
  (ev : Z * option (gmap string Value)) : Flow PVPCOptionsFlowHandler.t :=
  match status f with
  | AtStep cur_step =>
      settle cur_step (handle_options cur_step (snd ev) (set_clock (fst ev) (world f)))
  | _ => f
  end.

Definition start_options (store : list ConfigEntry) (e : ConfigEntry) (now : Z)
  : Flow PVPCOptionsFlowHandler.t :=
  settle "init"
    (PVPCOptionsFlowHandler.async_step_init None
       (mkWorld (PVPCOptionsFlowHandler.new e) store now [] [])).

Definition run_options (f : Flow PVPCOptionsFlowHandler.t)
  (evs : list (Z * option (gmap string Value))) : Flow PVPCOptionsFlowHandler.t :=
  fold_left configure_options evs f.

End Host.

(** * Statements *)

Import TariffSelectorConfigFlow.

(** A flow result that hands a record to the host carries it here. *)
Definition committed_data (r : FlowResult) : option (gmap string Value) :=
  match r with
  | FORM _ _ _ _ => None
  | CREATE_ENTRY _ data => Some data
  | UPDATE_RELOAD_ABORT _ data => Some data
  end.

(** ** The verification step in closed form *)

(** The effect and the result of [_async_verify] written without the
    monad; [_async_verify_eq] below proves that the handler computes
    exactly this pair. *)

Section Verify.

Variable check : Z -> Value -> bool.

(** The validator call the verification step makes in world [w]. *)
Definition the_call (w : World t) : CheckCall :=
  mkCall (clock w) (_api_token (self w))
         (check (clock w) (_api_token (self w))).

(** The world the verification step leaves behind. *)
Definition after_verify (w : World t) : World t :=
  let w1 := add_step "_async_verify" w in
  if truthy (_use_api_token (self w))
  then add_call (the_call w) (set_self (set_api (Some mkPVPCData)) w1)
  else w1.

(** What the verification step returns. *)
Definition verify_result (step_id : string) (w : World t) : Exn + FlowResult :=
  let o := self w in
  if truthy (_use_api_token o) && negb (check (clock w) (_api_token o)) then
    inr (FORM step_id None {[ "base" := "invalid_auth" ]} ∅)
  else if String.eqb (source o) SOURCE_REAUTH then
    inr (UPDATE_RELOAD_ABORT None (record_of o))
  else if is_not_None (_name o) then
    inr (CREATE_ENTRY (_name o) (record_of o))
  else inl AssertionError.

End Verify.

(** ** The first step in closed form *)

(** What [async_step_user] does with a submitted form [d] in world
    [w]: the first missing key raises, a known tariff aborts, a
    checked [use_api_token] shows the token form, and otherwise the
    record is created on the spot. [async_step_user_eq] below proves
    that the handler computes exactly this. *)
Definition user_result (d : gmap string Value) (w : World t)
  : (Exn + FlowResult) * World t :=
  let w1 := add_step "user" w in
  match d !! ATTR_TARIFF with
  | None => (inl (KeyError ATTR_TARIFF), w1)
  | Some tariff =>
    let w2 := set_self (set_unique_id tariff) w1 in
    if existsb (fun e => bool_decide (entry_unique_id e = tariff)) (hass w) then
      (inl (AbortFlow "already_configured"), w2)
    else
    match d !! CONF_NAME with
    | None => (inl (KeyError CONF_NAME), w2)
    | Some name =>
    let w3 := set_self (set_tariff tariff) (set_self (set_name name) w2) in
    match d !! ATTR_POWER with
    | None => (inl (KeyError ATTR_POWER), w3)
    | Some power =>
    let w4 := set_self (set_power power) w3 in
    match d !! ATTR_POWER_P3 with
    | None => (inl (KeyError ATTR_POWER_P3), w4)
    | Some power_p3 =>
    let w5 := set_self (set_power_p3 power_p3) w4 in
    match d !! CONF_USE_API_TOKEN with
    | None => (inl (KeyError CONF_USE_API_TOKEN), w5)
    | Some use =>
    let w6 := set_self (set_use_api_token use) w5 in
    if truthy use then
      (inr (FORM "api_token"
              (Some (api_token_schema (_api_token (self w)))) ∅
              {[ "mail_to_link" := _MAIL_TO_LINK ]}),
       add_step "api_token" w6)
    else
      (inr (CREATE_ENTRY name
              {[ CONF_NAME := name;
                 ATTR_TARIFF := tariff;
                 ATTR_POWER := power;
                 ATTR_POWER_P3 := power_p3;
                 CONF_API_TOKEN := VNone ]}),
       w6)
    end end end end
  end.

(** ** The store and its records *)

(** Every stored record is filed under its own tariff id, as the
    setup flow files them. *)
Definition store_wf (store : list ConfigEntry) : Prop :=
  forall e, e ∈ store -> entry_data e !! ATTR_TARIFF = Some (entry_unique_id e).

(** A record for tariff id [tariff] is already configured. *)
Definition configured (store : list ConfigEntry) (tariff : Value) : Prop :=
  exists e, e ∈ store /\ entry_data e !! ATTR_TARIFF = Some tariff.

(** ** Sample data *)

Definition accept_all (now : Z) (token : Value) : bool := true.

Definition reject_all (now : Z) (token : Value) : bool := false.

(** A submission of the first form with [use_api_token] unchecked. *)
Definition submit_without_token : gmap string Value :=
  {[ CONF_NAME := VStr "PVPC";
     ATTR_TARIFF := VStr "2.0TD";
     ATTR_POWER := VFloat (33 # 10);
     ATTR_POWER_P3 := VFloat (33 # 10);
     CONF_USE_API_TOKEN := VBool false ]}.

(** A stored record for tariff 2.0TD holding a token. *)
Definition stored_entry : ConfigEntry :=
  mkEntry "entry-1" (VStr "2.0TD") (VStr "PVPC")
    {[ CONF_NAME := VStr "PVPC";
       ATTR_TARIFF := VStr "2.0TD";
       ATTR_POWER := VFloat (33 # 10);
       ATTR_POWER_P3 := VFloat (33 # 10);
       CONF_API_TOKEN := VStr "old-token" ]}
    ∅.

(** A flow in re-authentication in which the user unchecked
    [use_api_token]. *)
Definition reauth_without_token : World t :=
  mkWorld (mk (VStr "PVPC") (VStr "2.0TD") (VFloat (33 # 10)) (VFloat (33 # 10))
              (VBool false) VNone None SOURCE_REAUTH VNone)
          [] 0 [] [].

(** A setup flow waiting at the token form with a token the validator
    is about to see. *)
Definition setup_with_token : World t :=
  mkWorld (mk (VStr "PVPC") (VStr "2.0TD") (VFloat (33 # 10)) (VFloat (33 # 10))
              (VBool true) (VStr "some-token") None SOURCE_USER (VStr "2.0TD"))
          [] 0 [] ["user"; "user"; "api_token"].

(** ** Statements that are put to the test *)

(** "Every verification makes exactly one validator call." *)
Definition verify_always_calls_once (check : Z -> Value -> bool) : Prop :=
  forall (step_id : string) (w : World t),
    exists c, calls (snd (_async_verify check step_id w)) = (calls w ++ [c])%list.

(** Token [token] was accepted by one of the validator calls [cs]. *)
Definition accepted (cs : list CheckCall) (token : Value) : Prop :=
  exists c, c ∈ cs /\ call_token c = token /\ call_ok c = true.

(** An options session on the stored record: the user checks
    [use_api_token], then types a token. *)
Definition options_session : Flow PVPCOptionsFlowHandler.t :=
  Host.run_options (Host.start_options [stored_entry] stored_entry 0)
    [(1%Z, Some {[ ATTR_POWER := VFloat (46 # 10);
                   ATTR_POWER_P3 := VFloat (46 # 10);
                   CONF_USE_API_TOKEN := VBool true ]});
     (2%Z, Some {[ CONF_API_TOKEN := VStr "unchecked-token" ]})].

(** A re-authentication session on the stored record, with a
    validator that accepts: the user submits a new token. *)
Definition reauth_session : Flow t :=
  Host.run accept_all VNone VNone VNone
    (Host.start_reauth accept_all [stored_entry] stored_entry 0)
    [(1%Z, Some {[ CONF_USE_API_TOKEN := VBool true;
                   CONF_API_TOKEN := VStr "new-token" ]})].

(** A setup session on an empty store: the first form is submitted
    with [use_api_token] unchecked. *)
Definition setup_session_without_token : Flow t :=
  Host.run reject_all VNone VNone VNone
    (Host.start_setup reject_all VNone VNone VNone [] 0)
    [(1%Z, Some submit_without_token)].

(** A setup session for a tariff that is already configured. *)
Definition setup_session_known_tariff : Flow t :=
  Host.run reject_all VNone VNone VNone
    (Host.start_setup reject_all VNone VNone VNone [stored_entry] 0)
    [(1%Z, Some submit_without_token)].

(** The submission [d] carries every field that the form of step
    [step_id] of the setup / re-authentication flow asks for. *)
Definition fields_present (step_id : string) (d : gmap string Value) : Prop :=
  if String.eqb step_id "user" then
    is_Some (d !! CONF_NAME) /\ is_Some (d !! ATTR_TARIFF)
    /\ is_Some (d !! ATTR_POWER) /\ is_Some (d !! ATTR_POWER_P3)
    /\ is_Some (d !! CONF_USE_API_TOKEN)
  else if String.eqb step_id "api_token" then is_Some (d !! CONF_API_TOKEN)
  else if String.eqb step_id "reauth_confirm" then is_Some (d !! CONF_USE_API_TOKEN)
  else False.

(** The only error a form may carry. *)
Definition invalid_auth : gmap string string := {[ "base" := "invalid_auth" ]}.

(** The handlers of the token phase of the setup flow. *)
Definition token_phase_step (s : string) : Prop :=
  s = "api_token" \/ s = "_async_verify".

(** The order of the setup flow, read off the handlers entered so far:
    first the user step, alone, as long as the flow waits at the first
    form; the token step and the verification follow once
    [use_api_token] was checked, and a record is then committed right
    after a verification; with [use_api_token] unchecked the record is
    committed from the user step, with no token. The record is filed
    under the tariff id it holds. *)
Definition setup_trace (f : Flow t) : Prop :=
  exists us ts : list string,
    steps (world f) = (us ++ ts)%list
    /\ us <> [] /\ Forall (eq "user") us /\ Forall token_phase_step ts
    /\ source (self (world f)) = SOURCE_USER
    /\ match status f with
       | AtStep cur_step =>
           (cur_step = "user" /\ ts = [])
           \/ (cur_step = "api_token"
               /\ truthy (_use_api_token (self (world f))) = true
               /\ head ts = Some "api_token"
               /\ _tariff (self (world f)) = unique_id (self (world f)))
       | Committed r =>
           exists title data, r = CREATE_ENTRY title data
             /\ data !! ATTR_TARIFF = Some (unique_id (self (world f)))
             /\ if truthy (_use_api_token (self (world f)))
                then head ts = Some "api_token"
                     /\ exists pre, ts = (pre ++ ["api_token"; "_async_verify"])%list
                else ts = [] /\ data !! CONF_API_TOKEN = Some VNone
       | Aborted reason => reason = "already_configured"
       end.

(** "Every setup completion passes through the verification step." *)
Definition every_setup_commit_verifies (check : Z -> Value -> bool)
  (DEFAULT_NAME DEFAULT_TARIFF DEFAULT_POWER_KW : Value) : Prop :=
  forall store now evs r,
    let f := Host.run check DEFAULT_NAME DEFAULT_TARIFF DEFAULT_POWER_KW
               (Host.start_setup check DEFAULT_NAME DEFAULT_TARIFF DEFAULT_POWER_KW
                  store now) evs in
    status f = Committed r -> "_async_verify" ∈ steps (world f).

(** ** Further definitions *)

(** [async_get_options_flow]: a fresh options handler; the host binds
    it to the entry whose options are edited. *)
Definition async_get_options_flow (config_entry : ConfigEntry)
  : PVPCOptionsFlowHandler.t :=
  PVPCOptionsFlowHandler.new config_entry.

(** The first key of [ks], in order, that the dictionary [d] lacks. *)
Fixpoint first_missing (ks : list string) (d : gmap string Value) : option string :=
  match ks with
  | [] => None
  | k :: ks' =>
      match d !! k with
      | None => Some k
      | Some _ => first_missing ks' d
      end
  end.

(** The keys of a record of the setup / re-authentication flow. *)
Definition record_keys : gset string :=
  {[ CONF_NAME; ATTR_TARIFF; ATTR_POWER; ATTR_POWER_P3; CONF_API_TOKEN ]}.


(** No validator call has been made unless the token step was
    entered. *)
Definition silent (f : Flow t) : Prop :=
  calls (world f) = [] \/ "api_token" ∈ steps (world f).

(** Where a re-authentication can stand: waiting at the confirmation
    form (or stuck at its entry step, when the entry data lacked a
    key), or ended in an update of the entry [None] with the flow's
    record; the flow keeps its source and the stored entries. *)
Definition reauth_trace (store : list ConfigEntry) (e : ConfigEntry)
  (f : Flow t) : Prop :=
  source (self (world f)) = SOURCE_REAUTH
  /\ hass (world f) = store
  /\ match status f with
     | AtStep cur_step =>
         cur_step = "reauth_confirm"
         \/ (cur_step = "reauth"
             /\ first_missing [CONF_NAME; ATTR_TARIFF; ATTR_POWER; ATTR_POWER_P3]
                  (entry_data e) <> None)
     | Committed r => r = UPDATE_RELOAD_ABORT None (record_of (self (world f)))
     | Aborted _ => False
     end.

(** * Properties *)

Ltac unfold_monad :=
  unfold bind, ret, raise, modify, get_self, assign, enter, utcnow, getitem in *.

Section VerifyFacts.

Variable check : Z -> Value -> bool.

Lemma _async_verify_eq (step_id : string) (w : World t) :
  _async_verify check step_id w = (verify_result check step_id w, after_verify check w).
Proof.
  unfold _async_verify, call_check, verify_result, after_verify, the_call.
  unfold_monad. destruct w as [o h c cs ss]. simpl.
  destruct (truthy (_use_api_token o)) eqn:Huse; simpl.
  - destruct (_api o) as [[]|] eqn:Hapi; simpl;
      destruct (check c (_api_token o)); simpl;
      unfold record_of; simpl; rewrite ?Huse;
      try (destruct (String.eqb (source o) SOURCE_REAUTH);
           [|destruct (is_not_None (_name o))]);
      unfold set_self, add_call, add_step, set_api; simpl;
      rewrite <- ?Hapi; destruct o; reflexivity.
  - unfold record_of; rewrite Huse.
    destruct (String.eqb (source o) SOURCE_REAUTH);
      [|destruct (is_not_None (_name o))]; reflexivity.
Qed.

Lemma after_verify_hass (w : World t) : hass (after_verify check w) = hass w.
Proof. unfold after_verify. destruct (truthy _); reflexivity. Qed.

Lemma after_verify_calls (w : World t) :
  calls (after_verify check w) =
  if truthy (_use_api_token (self w)) then (calls w ++ [the_call check w])%list else calls w.
Proof. unfold after_verify. destruct (truthy _); reflexivity. Qed.

Lemma after_verify_steps (w : World t) :
  steps (after_verify check w) = (steps w ++ ["_async_verify"])%list.
Proof. unfold after_verify. destruct (truthy _); reflexivity. Qed.

End VerifyFacts.

(** ** Verification: rejected tokens and validator calls *)

(** C3. Whenever the verification step runs with [use_api_token] true
    and the validator answers false, it returns the form of the very
    step id it was invoked with, carrying the single error
    [base: invalid_auth] and no schema; the host then waits at that
    same step, and neither the handler nor the host's persistence
    touches the stored records. *)
Theorem rejected_token_reshows_form
  (check : Z -> Value -> bool) (step_id : string) (w : World t) :
  truthy (_use_api_token (self w)) = true ->
  check (clock w) (_api_token (self w)) = false ->
  let out := _async_verify check step_id w in
  fst out = inr (FORM step_id None {[ "base" := "invalid_auth" ]} ∅)
  /\ hass (snd out) = hass w
  /\ status (settle step_id out) = AtStep step_id
  /\ (forall r, fst out = inr r ->
        committed_data r = None
        /\ forall new_id uid, persist_config new_id uid r (hass w) = inr (hass w)).
Proof.
  intros Huse Hchk out. subst out. rewrite _async_verify_eq. simpl.
  unfold verify_result. rewrite Huse, Hchk. simpl.
  split; [reflexivity|]. split; [apply after_verify_hass|].
  split; [reflexivity|].
  intros r Hr. inversion Hr. split; reflexivity.
Qed.

(** An instance: the setup flow's token step with a validator that
    rejects. *)
Lemma rejected_token_reshows_form_witness :
  fst (_async_verify reject_all "api_token" setup_with_token)
  = inr (FORM "api_token" None {[ "base" := "invalid_auth" ]} ∅)
  /\ status (settle "api_token" (_async_verify reject_all "api_token" setup_with_token))
     = AtStep "api_token".
Proof.
  pose proof (rejected_token_reshows_form reject_all "api_token" setup_with_token
                eq_refl eq_refl) as H.
  exact (conj (proj1 H) (proj1 (proj2 (proj2 H)))).
Defined.

(** The two callers of the verification step pass their own step id. *)
Lemma api_token_step_verifies (check : Z -> Value -> bool)
  (d : gmap string Value) (token : Value) (w : World t) :
  d !! CONF_API_TOKEN = Some token ->
  async_step_api_token check (Some d) w
  = _async_verify check "api_token"
      (set_self (set_api_token token) (add_step "api_token" w)).
Proof.
  intros Hd. unfold async_step_api_token. unfold_monad. simpl.
  rewrite Hd. reflexivity.
Qed.

Lemma reauth_confirm_step_verifies (check : Z -> Value -> bool)
  (d : gmap string Value) (use : Value) (w : World t) :
  dict_truthy d = true ->
  d !! CONF_USE_API_TOKEN = Some use ->
  async_step_reauth_confirm check (Some d) w
  = _async_verify check "reauth_confirm"
      (set_self (set_use_api_token use)
         (set_self (set_api_token (dict_get d CONF_API_TOKEN VNone))
            (add_step "reauth_confirm" w))).
Proof.
  intros Hne Hd. unfold async_step_reauth_confirm. unfold_monad. simpl.
  rewrite Hne. simpl. rewrite Hd. reflexivity.
Qed.

(** Seen from the host: a flow waiting at the token form, or at the
    confirmation form, that gets a rejected token waits at that same
    form again. *)
Lemma rejected_token_keeps_token_step (check : Z -> Value -> bool)
  (DEFAULT_NAME DEFAULT_TARIFF DEFAULT_POWER_KW : Value)
  (w : World t) (now : Z) (d : gmap string Value) (token : Value) :
  d !! CONF_API_TOKEN = Some token ->
  truthy (_use_api_token (self w)) = true ->
  check now token = false ->
  status (Host.configure check DEFAULT_NAME DEFAULT_TARIFF DEFAULT_POWER_KW
            (mkFlow w (AtStep "api_token")) (now, Some d))
  = AtStep "api_token".
Proof.
  intros Hd Huse Hchk. unfold Host.configure, Host.handle. simpl.
  rewrite (api_token_step_verifies check d token _ Hd), _async_verify_eq.
  unfold verify_result. simpl. rewrite Huse, Hchk. reflexivity.
Qed.

Lemma rejected_token_keeps_confirm_step (check : Z -> Value -> bool)
  (DEFAULT_NAME DEFAULT_TARIFF DEFAULT_POWER_KW : Value)
  (w : World t) (now : Z) (d : gmap string Value) (use : Value) :
  dict_truthy d = true ->
  d !! CONF_USE_API_TOKEN = Some use ->
  truthy use = true ->
  check now (dict_get d CONF_API_TOKEN VNone) = false ->
  status (Host.configure check DEFAULT_NAME DEFAULT_TARIFF DEFAULT_POWER_KW
            (mkFlow w (AtStep "reauth_confirm")) (now, Some d))
  = AtStep "reauth_confirm".
Proof.
  intros Hne Hd Huse Hchk. unfold Host.configure, Host.handle. simpl.
  rewrite (reauth_confirm_step_verifies check d use _ Hne Hd), _async_verify_eq.
  unfold verify_result. simpl. rewrite Huse, Hchk. reflexivity.
Qed.

(** C8, as stated, fails: with [use_api_token] false the verification
    step makes no validator call at all. *)
Lemma verify_without_token_makes_no_call :
  calls (snd (_async_verify accept_all "reauth_confirm" reauth_without_token)) = []
  /\ ~ verify_always_calls_once accept_all.
Proof.
  split; [reflexivity|].
  intros H. destruct (H "reauth_confirm" reauth_without_token) as [c Hc].
  vm_compute in Hc. discriminate Hc.
Qed.

(** C8, amended. The verification step calls the validator exactly
    once, with the current time and the flow's token, when
    [use_api_token] is true, and not at all when it is false; it never
    calls it a second time. *)
Theorem verify_calls_validator_at_most_once
  (check : Z -> Value -> bool) (step_id : string) (w : World t) :
  calls (snd (_async_verify check step_id w)) =
  if truthy (_use_api_token (self w))
  then (calls w ++ [mkCall (clock w) (_api_token (self w))
                           (check (clock w) (_api_token (self w)))])%list
  else calls w.
Proof. rewrite _async_verify_eq. simpl. apply after_verify_calls. Qed.

Section HandlerFacts.

Variable check : Z -> Value -> bool.
Variables DEFAULT_NAME DEFAULT_TARIFF DEFAULT_POWER_KW : Value.

Abbreviation user_step := (async_step_user check DEFAULT_NAME DEFAULT_TARIFF DEFAULT_POWER_KW).

Lemma async_step_user_eq (d : gmap string Value) (w : World t) :
  user_step (Some d) w = user_result d w.
Proof.
  unfold async_step_user, user_result, async_set_unique_id,
    _abort_if_unique_id_configured, async_step_api_token.
  unfold_monad. simpl.
  destruct (d !! ATTR_TARIFF) as [tariff|]; simpl; [|reflexivity].
  destruct (existsb _ _); simpl; [reflexivity|].
  destruct (d !! CONF_NAME) as [name|]; simpl; [|reflexivity].
  destruct (d !! ATTR_POWER) as [power|]; simpl; [|reflexivity].
  destruct (d !! ATTR_POWER_P3) as [power_p3|]; simpl; [|reflexivity].
  destruct (d !! CONF_USE_API_TOKEN) as [use|]; simpl; [|reflexivity].
  destruct (truthy use); reflexivity.
Qed.


Lemma known_tariff_iff (store : list ConfigEntry) (tariff : Value) :
  store_wf store ->
  existsb (fun e => bool_decide (entry_unique_id e = tariff)) store = true
  <-> configured store tariff.
Proof.
  intros Hwf. rewrite existsb_exists. split.
  - intros (e & Hin & He). exists e. apply list_elem_of_In in Hin.
    apply bool_decide_eq_true in He. split; [exact Hin|].
    rewrite (Hwf e Hin), He. reflexivity.
  - intros (e & Hin & He). exists e. split; [apply list_elem_of_In; exact Hin|].
    apply bool_decide_eq_true. rewrite (Hwf e Hin) in He. congruence.
Qed.

Lemma user_result_hass (d : gmap string Value) (w : World t) :
  hass (snd (user_result d w)) = hass w.
Proof.
  unfold user_result.
  repeat match goal with
         | |- context [match ?x !! ?k with _ => _ end] => destruct (x !! k)
         | |- context [if ?b then _ else _] => destruct b
         end; reflexivity.
Qed.

End HandlerFacts.

(** ** Tariff uniqueness *)

(** C5. A submission of the first form whose tariff id is that of an
    already configured record makes the setup flow abort with
    [already_configured], leaving the stored records as they were;
    when no record has that tariff id the step goes on: it shows the
    token form, or creates the record, as [use_api_token] says. *)
Theorem known_tariff_aborts_setup
  (check : Z -> Value -> bool) (DEFAULT_NAME DEFAULT_TARIFF DEFAULT_POWER_KW : Value)
  (d : gmap string Value) (name tariff power power_p3 use : Value) (w : World t) :
  d !! CONF_NAME = Some name ->
  d !! ATTR_TARIFF = Some tariff ->
  d !! ATTR_POWER = Some power ->
  d !! ATTR_POWER_P3 = Some power_p3 ->
  d !! CONF_USE_API_TOKEN = Some use ->
  store_wf (hass w) ->
  let out := async_step_user check DEFAULT_NAME DEFAULT_TARIFF DEFAULT_POWER_KW
               (Some d) w in
  hass (snd out) = hass w
  /\ (configured (hass w) tariff ->
        fst out = inl (AbortFlow "already_configured")
        /\ status (settle "user" out) = Aborted "already_configured"
        /\ hass (world (settle "user" out)) = hass w)
  /\ (~ configured (hass w) tariff ->
        fst out =
        inr (if truthy use
             then FORM "api_token"
                    (Some [mkKey Required CONF_API_TOKEN (_api_token (self w)) v_str])
                    ∅ {[ "mail_to_link" := _MAIL_TO_LINK ]}
             else CREATE_ENTRY name
                    {[ CONF_NAME := name;
                       ATTR_TARIFF := tariff;
                       ATTR_POWER := power;
                       ATTR_POWER_P3 := power_p3;
                       CONF_API_TOKEN := VNone ]})).
Proof.
  intros Hname Htariff Hpower Hp3 Huse Hwf out. subst out.
  rewrite async_step_user_eq. split; [apply user_result_hass|].
  unfold user_result. rewrite Htariff, Hname, Hpower, Hp3, Huse.
  pose proof (known_tariff_iff (hass w) tariff Hwf) as Hiff.
  destruct (existsb _ (hass w)) eqn:Hex.
  - split; [intros _; repeat split; reflexivity|].
    intros Hn. exfalso. apply Hn, Hiff. reflexivity.
  - split.
    + intros Hc. apply Hiff in Hc. discriminate Hc.
    + intros _. destruct (truthy use); reflexivity.
Qed.

(** An instance: the stored 2.0TD record makes a second 2.0TD setup
    abort. *)
Lemma known_tariff_aborts_setup_witness :
  configured [stored_entry] (VStr "2.0TD")
  /\ fst (async_step_user reject_all VNone VNone VNone (Some submit_without_token)
            (mkWorld (new SOURCE_USER) [stored_entry] 0 [] []))
     = inl (AbortFlow "already_configured").
Proof.
  assert (Hc : configured [stored_entry] (VStr "2.0TD")).
  { exists stored_entry. split; [apply list_elem_of_here | reflexivity]. }
  split; [exact Hc|].
  refine (proj1 (proj1 (proj2 (known_tariff_aborts_setup reject_all VNone VNone VNone
            submit_without_token (VStr "PVPC") (VStr "2.0TD") (VFloat (33 # 10))
            (VFloat (33 # 10)) (VBool false)
            (mkWorld (new SOURCE_USER) [stored_entry] 0 [] [])
            eq_refl eq_refl eq_refl eq_refl eq_refl _)) Hc)).
  intros e He. apply list_elem_of_singleton in He. subst e. reflexivity.
Defined.

(** ** The options flow *)

Ltac options_cases :=
  unfold Host.handle_options, PVPCOptionsFlowHandler.async_step_init,
    PVPCOptionsFlowHandler.async_step_api_token;
  unfold_monad; simpl;
  repeat match goal with
         | |- context [String.eqb ?a ?b] => destruct (String.eqb a b); simpl
         | |- context [match ?x with Some _ => _ | None => _ end] =>
             destruct x eqn:?; simpl
         | |- context [if dict_truthy ?d then _ else _] =>
             destruct (dict_truthy d) eqn:?; simpl
         | |- context [if truthy ?v then _ else _] =>
             destruct (truthy v) eqn:?; simpl
         end.

Lemma empty_token_is_falsy (d : gmap string Value) :
  d !! CONF_API_TOKEN = None \/ d !! CONF_API_TOKEN = Some VNone
  \/ d !! CONF_API_TOKEN = Some (VStr "") ->
  truthy (dict_get d CONF_API_TOKEN VNone) = false.
Proof. unfold dict_get. intros [H|[H|H]]; rewrite H; reflexivity. Qed.

(** C9. In the options flow's token step, a submission whose token is
    missing, [None] or the empty string gets the token form again, its
    field prefilled with the stored token (the one in the entry's
    options and, when the options have none, the one in its data); and
    whatever the submission, a record this step creates carries a
    token that is neither [None] nor empty. *)
Theorem options_token_step_rejects_empty_token
  (d : gmap string Value) (w : World PVPCOptionsFlowHandler.t) :
  d !! CONF_API_TOKEN = None \/ d !! CONF_API_TOKEN = Some VNone
  \/ d !! CONF_API_TOKEN = Some (VStr "") ->
  let e := PVPCOptionsFlowHandler.config_entry (self w) in
  let stored :=
    match entry_options e !! CONF_API_TOKEN with
    | Some token => token
    | None => match entry_data e !! CONF_API_TOKEN with
              | Some token => token
              | None => VNone
              end
    end in
  fst (PVPCOptionsFlowHandler.async_step_api_token (Some d) w)
  = inr (FORM "api_token" (Some [mkKey Required CONF_API_TOKEN stored v_str]) ∅
           {[ "mail_to_link" := _MAIL_TO_LINK ]})
  /\ hass (snd (PVPCOptionsFlowHandler.async_step_api_token (Some d) w)) = hass w
  /\ forall user_input w' title data,
       fst (PVPCOptionsFlowHandler.async_step_api_token user_input w')
       = inr (CREATE_ENTRY title data) ->
       exists token, data !! CONF_API_TOKEN = Some token
                     /\ token <> VNone /\ token <> VStr "".
Proof.
  intros Hd e stored. apply empty_token_is_falsy in Hd.
  split; [|split].
  - unfold PVPCOptionsFlowHandler.async_step_api_token. unfold_monad. simpl.
    destruct (dict_truthy d); simpl; [rewrite Hd|]; reflexivity.
  - unfold PVPCOptionsFlowHandler.async_step_api_token. unfold_monad. simpl.
    destruct (dict_truthy d); simpl; [rewrite Hd|]; reflexivity.
  - intros user_input w' title data.
    unfold PVPCOptionsFlowHandler.async_step_api_token. unfold_monad. simpl.
    destruct user_input as [d'|]; simpl; [|discriminate].
    destruct (dict_truthy d'); simpl; [|discriminate].
    destruct (truthy (dict_get d' CONF_API_TOKEN VNone)) eqn:Htok; [|discriminate].
    intros H. inversion H; subst. exists (dict_get d' CONF_API_TOKEN VNone).
    split; [reflexivity|].
    split; intros Heq; rewrite Heq in Htok; discriminate Htok.
Qed.

(** An instance: a submission with an empty token on the stored
    record. *)
Lemma options_token_step_rejects_empty_token_witness :
  fst (PVPCOptionsFlowHandler.async_step_api_token
         (Some {[ CONF_API_TOKEN := VStr "" ]})
         (mkWorld (PVPCOptionsFlowHandler.new stored_entry) [stored_entry] 0 [] []))
  = inr (FORM "api_token"
           (Some [mkKey Required CONF_API_TOKEN (VStr "old-token") v_str]) ∅
           {[ "mail_to_link" := _MAIL_TO_LINK ]}).
Proof.
  exact (proj1 (options_token_step_rejects_empty_token
                  {[ CONF_API_TOKEN := VStr "" ]}
                  (mkWorld (PVPCOptionsFlowHandler.new stored_entry) [stored_entry] 0 [] [])
                  (or_intror (or_intror eq_refl)))).
Defined.

Lemma options_data_keys (power power_p3 token : Value) :
  dom ({[ ATTR_POWER := power; ATTR_POWER_P3 := power_p3; CONF_API_TOKEN := token ]}
       : gmap string Value)
  = ({[ ATTR_POWER; ATTR_POWER_P3; CONF_API_TOKEN ]} : gset string).
Proof. rewrite !dom_insert_L, dom_singleton_L. set_solver. Qed.

Lemma replace_options_keeps_data (id : string) (options : gmap string Value)
  (e : ConfigEntry) :
  entry_data (replace_options id options e) = entry_data e
  /\ entry_id (replace_options id options e) = entry_id e
  /\ entry_unique_id (replace_options id options e) = entry_unique_id e
  /\ entry_title (replace_options id options e) = entry_title e.
Proof. unfold replace_options. destruct (String.eqb _ _); repeat split. Qed.

Lemma persist_options_lookup (e : ConfigEntry) (r : FlowResult)
  (store : list ConfigEntry) (i : nat) (e0 : ConfigEntry) :
  store !! i = Some e0 ->
  exists e1, persist_options e r store !! i = Some e1
             /\ entry_data e1 = entry_data e0
             /\ entry_unique_id e1 = entry_unique_id e0
             /\ entry_title e1 = entry_title e0.
Proof.
  intros Hi. destruct r; simpl; try (exists e0; repeat split; assumption).
  exists (replace_options (entry_id e) data e0).
  rewrite list_lookup_fmap, Hi. simpl.
  destruct (replace_options_keeps_data (entry_id e) data e0) as (H1 & _ & H3 & H4).
  repeat split; assumption.
Qed.

(** C10. Whichever step of the options flow creates the result, its
    data has exactly the keys power, power_p3 and api_token; the
    handler leaves the stored records alone, and when the host saves
    the result as the entry's options every stored record keeps its
    data, so its name and its tariff id, as they were. *)
Theorem options_flow_writes_only_powers_and_token
  (step_id : string) (user_input : option (gmap string Value))
  (w : World PVPCOptionsFlowHandler.t) (title : Value) (data : gmap string Value) :
  fst (Host.handle_options step_id user_input w) = inr (CREATE_ENTRY title data) ->
  dom data = ({[ ATTR_POWER; ATTR_POWER_P3; CONF_API_TOKEN ]} : gset string)
  /\ hass (snd (Host.handle_options step_id user_input w)) = hass w
  /\ forall (store : list ConfigEntry) (i : nat) (e0 : ConfigEntry),
       store !! i = Some e0 ->
       exists e1,
         persist_options (PVPCOptionsFlowHandler.config_entry (self w))
                         (CREATE_ENTRY title data) store !! i = Some e1
         /\ entry_data e1 !! CONF_NAME = entry_data e0 !! CONF_NAME
         /\ entry_data e1 !! ATTR_TARIFF = entry_data e0 !! ATTR_TARIFF
         /\ entry_data e1 = entry_data e0.
Proof.
  intros H. split; [|split].
  - revert H. options_cases; intros H; inversion H; subst;
      apply options_data_keys.
  - clear H. options_cases; reflexivity.
  - intros store i e0 Hi.
    destruct (persist_options_lookup (PVPCOptionsFlowHandler.config_entry (self w))
                (CREATE_ENTRY title data) store i e0 Hi) as (e1 & H1 & H2 & _).
    exists e1. rewrite H2. repeat split; assumption.
Qed.

(** An instance: unchecking [use_api_token] in the options of the
    stored record. *)
Lemma options_flow_writes_only_powers_and_token_witness :
  dom ({[ ATTR_POWER := VFloat (46 # 10); ATTR_POWER_P3 := VFloat (46 # 10);
          CONF_API_TOKEN := VNone ]} : gmap string Value)
  = ({[ ATTR_POWER; ATTR_POWER_P3; CONF_API_TOKEN ]} : gset string).
Proof.
  exact (proj1 (options_flow_writes_only_powers_and_token "init"
           (Some {[ ATTR_POWER := VFloat (46 # 10); ATTR_POWER_P3 := VFloat (46 # 10);
                    CONF_USE_API_TOKEN := VBool false ]})
           (mkWorld (PVPCOptionsFlowHandler.new stored_entry) [stored_entry] 0 [] [])
           (VStr "")
           {[ ATTR_POWER := VFloat (46 # 10); ATTR_POWER_P3 := VFloat (46 # 10);
              CONF_API_TOKEN := VNone ]}
           eq_refl)).
Defined.

(** ** Records committed without a token *)

Lemma record_of_token (o : t) :
  record_of o !! CONF_API_TOKEN
  = Some (if truthy (_use_api_token o) then _api_token o else VNone).
Proof. reflexivity. Qed.

Lemma verify_result_commit (check : Z -> Value -> bool) (step_id : string)
  (w : World t) (r : FlowResult) (data : gmap string Value) :
  verify_result check step_id w = inr r ->
  committed_data r = Some data ->
  data = record_of (self w)
  /\ (truthy (_use_api_token (self w)) = true ->
      check (clock w) (_api_token (self w)) = true).
Proof.
  unfold verify_result. intros Hr Hc.
  destruct (truthy (_use_api_token (self w))); simpl in Hr;
    [destruct (check (clock w) (_api_token (self w))); simpl in Hr|];
    try (destruct (String.eqb (source (self w)) SOURCE_REAUTH);
         [|destruct (is_not_None (_name (self w)))]);
    inversion Hr; subst; simpl in Hc; inversion Hc; subst;
    split; try reflexivity; try discriminate; auto.
Qed.

(** C2. A submission with [use_api_token] false (unchecked) never
    yields a record with a token: whether it reaches the first step of
    the setup flow, the confirmation step of a re-authentication or
    the first step of the options flow, and whatever token the flow or
    the submission holds, the record handed to the host has
    [api_token] set to [None]. *)
Theorem unchecked_token_commits_null
  (check : Z -> Value -> bool) (DEFAULT_NAME DEFAULT_TARIFF DEFAULT_POWER_KW : Value)
  (d : gmap string Value) (use : Value) :
  d !! CONF_USE_API_TOKEN = Some use ->
  truthy use = false ->
  (forall (w : World t) r data,
      fst (async_step_user check DEFAULT_NAME DEFAULT_TARIFF DEFAULT_POWER_KW
             (Some d) w) = inr r ->
      committed_data r = Some data ->
      data !! CONF_API_TOKEN = Some VNone)
  /\ (forall (w : World t) r data,
      fst (async_step_reauth_confirm check (Some d) w) = inr r ->
      committed_data r = Some data ->
      data !! CONF_API_TOKEN = Some VNone)
  /\ (forall (w : World PVPCOptionsFlowHandler.t) r data,
      fst (PVPCOptionsFlowHandler.async_step_init (Some d) w) = inr r ->
      committed_data r = Some data ->
      data !! CONF_API_TOKEN = Some VNone).
Proof.
  intros Hd Huse. split; [|split]; intros w r data.
  - rewrite async_step_user_eq. unfold user_result. rewrite Hd, Huse.
    repeat match goal with
           | |- context [match ?x !! ?k with _ => _ end] => destruct (x !! k)
           | |- context [if ?b then _ else _] => destruct b
           end; simpl; intros H; inversion H; subst; simpl;
      intros Hc; inversion Hc; subst; reflexivity.
  - unfold async_step_reauth_confirm. unfold_monad. simpl.
    destruct (dict_truthy d); simpl.
    + rewrite Hd. simpl. rewrite _async_verify_eq. simpl. intros Hr Hc.
      destruct (verify_result_commit _ _ _ _ _ Hr Hc) as [-> _].
      rewrite record_of_token. simpl. rewrite Huse. reflexivity.
    + intros H; inversion H; subst; discriminate.
  - unfold PVPCOptionsFlowHandler.async_step_init. unfold_monad. simpl.
    destruct (d !! ATTR_POWER); simpl; [|discriminate].
    destruct (d !! ATTR_POWER_P3); simpl; [|discriminate].
    rewrite Hd. simpl. rewrite Huse.
    intros H; inversion H; subst; simpl. intros Hc; inversion Hc; subst.
    reflexivity.
Qed.

(** An instance: the first form submitted with the box unchecked. *)
Lemma unchecked_token_commits_null_witness :
  (<[ CONF_API_TOKEN := VNone ]> (delete CONF_USE_API_TOKEN submit_without_token)
   : gmap string Value) !! CONF_API_TOKEN = Some VNone.
Proof.
  exact (proj1 (unchecked_token_commits_null reject_all VNone VNone VNone
                  submit_without_token (VBool false) eq_refl eq_refl)
           (mkWorld (new SOURCE_USER) [] 0 [] [])
           (CREATE_ENTRY (VStr "PVPC")
              (<[ CONF_API_TOKEN := VNone ]>
                 (delete CONF_USE_API_TOKEN submit_without_token)))
           _ eq_refl eq_refl).
Defined.

(** ** Committed tokens and the validator *)

(** C1, as stated, fails: the options flow commits the token the user
    typed although no validator call was made in the session. *)
Lemma options_flow_commits_unchecked_token :
  status options_session
  = Committed (CREATE_ENTRY (VStr "")
                 {[ ATTR_POWER := VFloat (46 # 10);
                    ATTR_POWER_P3 := VFloat (46 # 10);
                    CONF_API_TOKEN := VStr "unchecked-token" ]})
  /\ calls (world options_session) = []
  /\ ~ accepted (calls (world options_session)) (VStr "unchecked-token").
Proof.
  split; [vm_compute; reflexivity|]. split; [reflexivity|].
  intros (c & Hc & _). vm_compute in Hc. inversion Hc.
Qed.

Lemma user_result_commit_unchecked (d : gmap string Value) (w : World t)
  (r : FlowResult) (data : gmap string Value) :
  fst (user_result d w) = inr r ->
  committed_data r = Some data ->
  truthy (_use_api_token (self (snd (user_result d w)))) = false
  /\ data !! CONF_API_TOKEN = Some VNone
  /\ calls (snd (user_result d w)) = calls w.
Proof.
  unfold user_result.
  repeat match goal with
         | |- context [match ?x !! ?k with _ => _ end] => destruct (x !! k)
         | |- context [if existsb ?f ?l then _ else _] => destruct (existsb f l)
         end; simpl; try discriminate.
  destruct (truthy v3) eqn:Huse; simpl; intros H; inversion H; subst; simpl;
    intros Hc; inversion Hc; subst. repeat split; assumption.
Qed.

(** C1, amended. In the setup and re-authentication flows, a record
    handed to the host while [use_api_token] is true carries exactly
    the token submitted in that step, and the validator was called on
    that token in the same step and accepted it; the token is thus
    non-null whenever the submitted one is. The options flow commits a
    token without any validator call; the token of a record it creates
    is either [None] or a value that is neither [None] nor empty. *)
Theorem committed_token_was_accepted
  (check : Z -> Value -> bool) (DEFAULT_NAME DEFAULT_TARIFF DEFAULT_POWER_KW : Value)
  (step_id : string) (user_input : option (gmap string Value)) (w : World t)
  (r : FlowResult) (data : gmap string Value) :
  let out := Host.handle check DEFAULT_NAME DEFAULT_TARIFF DEFAULT_POWER_KW
               step_id user_input w in
  fst out = inr r ->
  committed_data r = Some data ->
  truthy (_use_api_token (self (snd out))) = true ->
  (exists d, user_input = Some d
     /\ data !! CONF_API_TOKEN = Some (dict_get d CONF_API_TOKEN VNone)
     /\ check (clock w) (dict_get d CONF_API_TOKEN VNone) = true
     /\ calls (snd out)
        = (calls w ++ [mkCall (clock w) (dict_get d CONF_API_TOKEN VNone) true])%list)
  /\ (forall step_id' user_input' (w' : World PVPCOptionsFlowHandler.t) title data',
        fst (Host.handle_options step_id' user_input' w') = inr (CREATE_ENTRY title data') ->
        calls (snd (Host.handle_options step_id' user_input' w')) = calls w'
        /\ exists token, data' !! CONF_API_TOKEN = Some token
                         /\ (token = VNone \/ (token <> VNone /\ token <> VStr ""))).
Proof.
  intros out Hr Hc Huse. split.
  - subst out. unfold Host.handle in *.
    destruct (String.eqb step_id "user").
    { destruct user_input as [d|].
      - rewrite async_step_user_eq in *.
        destruct (user_result_commit_unchecked d w r data Hr Hc) as (Hf & _).
        rewrite Hf in Huse. discriminate Huse.
      - simpl in Hr. inversion Hr; subst. discriminate Hc. }
    destruct (String.eqb step_id "api_token").
    { destruct user_input as [d|].
      - exists d. split; [reflexivity|]. unfold dict_get.
        unfold async_step_api_token in *. unfold_monad. simpl in *.
        destruct (d !! CONF_API_TOKEN) as [token|]; simpl in *; [|discriminate Hr].
        rewrite _async_verify_eq in *. simpl in *.
        destruct (verify_result_commit _ _ _ _ _ Hr Hc) as [-> Hok].
        rewrite after_verify_calls. rewrite record_of_token. simpl in *.
        unfold after_verify in Huse. simpl in Huse.
        destruct (truthy (_use_api_token (self w))) eqn:Hflag;
          [|simpl in Huse; rewrite Hflag in Huse; discriminate Huse].
        specialize (Hok eq_refl). unfold the_call. simpl. rewrite Hok.
        repeat split.
      - simpl in Hr. inversion Hr; subst. discriminate Hc. }
    destruct (String.eqb step_id "reauth_confirm"); [|discriminate Hr].
    destruct user_input as [d|].
    + exists d. split; [reflexivity|].
      unfold async_step_reauth_confirm in *. unfold_monad. simpl in *.
      destruct (dict_truthy d); simpl in *;
        [|inversion Hr; subst; discriminate Hc].
      destruct (d !! CONF_USE_API_TOKEN) as [use|]; simpl in *; [|discriminate Hr].
      rewrite _async_verify_eq in *. simpl in *.
      destruct (verify_result_commit _ _ _ _ _ Hr Hc) as [-> Hok].
      rewrite after_verify_calls. rewrite record_of_token. simpl in *.
      unfold after_verify in Huse. simpl in Huse.
      destruct (truthy use) eqn:Hflag;
        [|simpl in Huse; rewrite Hflag in Huse; discriminate Huse].
      specialize (Hok eq_refl). unfold the_call. simpl. rewrite Hok.
      repeat split.
    + simpl in Hr. inversion Hr; subst. discriminate Hc.
  - clear. intros step_id' user_input' w' title data'. split.
    + clear H. options_cases; reflexivity.
    + revert H. options_cases; intros H; inversion H; subst;
        (eexists; split; [reflexivity|]);
        first [ left; reflexivity
              | right; split; intros Heq;
                match goal with
                | Ht : truthy _ = true |- _ => rewrite Heq in Ht; discriminate Ht
                end ].
Qed.

(** An instance: the setup flow's token step with a validator that
    accepts. *)
Lemma committed_token_was_accepted_witness :
  exists d, Some ({[ CONF_API_TOKEN := VStr "some-token" ]} : gmap string Value) = Some d
    /\ (record_of (set_api_token (VStr "some-token") (self setup_with_token)))
         !! CONF_API_TOKEN = Some (dict_get d CONF_API_TOKEN VNone)
    /\ accept_all 0 (dict_get d CONF_API_TOKEN VNone) = true
    /\ calls (snd (Host.handle accept_all VNone VNone VNone "api_token"
                     (Some {[ CONF_API_TOKEN := VStr "some-token" ]}) setup_with_token))
       = [mkCall 0 (dict_get d CONF_API_TOKEN VNone) true].
Proof.
  exact (proj1 (committed_token_was_accepted accept_all VNone VNone VNone "api_token"
                  (Some {[ CONF_API_TOKEN := VStr "some-token" ]}) setup_with_token
                  (CREATE_ENTRY (VStr "PVPC")
                     (record_of (set_api_token (VStr "some-token") (self setup_with_token))))
                  (record_of (set_api_token (VStr "some-token") (self setup_with_token)))
                  eq_refl eq_refl eq_refl)).
Defined.

(** ** Re-authentication *)

(** C4 on the code: after the validator accepted the new token, the
    re-authentication flow asks the host to update, with the new data,
    the entry [None]: it names no stored record, so the host's update
    fails and the stored record keeps its old token; no second record
    is created either. *)
Lemma reauth_update_names_no_entry :
  status reauth_session
  = Committed (UPDATE_RELOAD_ABORT None
                 {[ CONF_NAME := VStr "PVPC";
                    ATTR_TARIFF := VStr "2.0TD";
                    ATTR_POWER := VFloat (33 # 10);
                    ATTR_POWER_P3 := VFloat (33 # 10);
                    CONF_API_TOKEN := VStr "new-token" ]})
  /\ calls (world reauth_session) = [mkCall 1 (VStr "new-token") true]
  /\ hass (world reauth_session) = [stored_entry]
  /\ (forall r, status reauth_session = Committed r ->
        persist_config "entry-2" (unique_id (self (world reauth_session))) r
          (hass (world reauth_session)) = inl AttributeError).
Proof.
  split; [vm_compute; reflexivity|]. split; [vm_compute; reflexivity|].
  split; [vm_compute; reflexivity|].
  intros r Hr. vm_compute in Hr. inversion Hr; subst. reflexivity.
Qed.

(** ** Failure outcomes *)

(** C7, as stated, fails: a setup for an already configured tariff
    ends in an abort, a failure that is no inline form error. *)
Lemma known_tariff_is_another_failure :
  status setup_session_known_tariff = Aborted "already_configured".
Proof. vm_compute. reflexivity. Qed.

Lemma verify_result_form (check : Z -> Value -> bool) (step_id : string) (w : World t)
  sid schema errors ph :
  verify_result check step_id w = inr (FORM sid schema errors ph) ->
  errors = invalid_auth /\ sid = step_id /\ schema = None.
Proof.
  unfold verify_result.
  destruct (truthy _ && negb _);
    [|destruct (String.eqb _ _); [|destruct (is_not_None _)]];
    intros H; inversion H; subst; repeat split.
Qed.

Lemma verify_result_raise (check : Z -> Value -> bool) (step_id : string)
  (w : World t) (e : Exn) :
  verify_result check step_id w = inl e ->
  (forall reason, e <> AbortFlow reason)
  /\ (String.eqb (source (self w)) SOURCE_REAUTH = false ->
      e = AssertionError /\ is_not_None (_name (self w)) = false).
Proof.
  unfold verify_result.
  destruct (truthy _ && negb _); [discriminate|].
  destruct (String.eqb _ _) eqn:Hs; [|destruct (is_not_None _) eqn:Hn];
    intros H; inversion H; subst;
    (split; [intros reason Heq; discriminate Heq|]);
    intros Hs'; try discriminate Hs'; split; reflexivity.
Qed.

(** C7, amended. The only error a form of either flow ever carries is
    [invalid_auth], and only the verification step attaches it, to the
    form of the step that invoked it; the one other failure the flows
    have by design is the abort [already_configured] of the setup
    flow's first step. The first step of a re-authentication and the
    options flow end in neither. A submission that carries the fields
    of its form raises nothing else in the first step, nor in the later
    steps of a flow that is no re-authentication and has its name. How
    an accepted re-authentication ends is left out here: the statement
    constrains neither the update it asks for nor what that update
    raises. *)
Theorem only_invalid_auth_and_known_tariff_fail
  (check : Z -> Value -> bool) (DEFAULT_NAME DEFAULT_TARIFF DEFAULT_POWER_KW : Value)
  (step_id : string) (user_input : option (gmap string Value)) (w : World t) :
  let out := Host.handle check DEFAULT_NAME DEFAULT_TARIFF DEFAULT_POWER_KW
               step_id user_input w in
  match fst out with
  | inr (FORM sid schema errors _) =>
      errors = ∅
      \/ (errors = invalid_auth /\ sid = step_id /\ schema = None
          /\ step_id <> "user"
          /\ last (steps (snd out)) = Some "_async_verify")
  | inr _ => True
  | inl (AbortFlow reason) => reason = "already_configured" /\ step_id = "user"
  | inl _ =>
      forall d, user_input = Some d -> fields_present step_id d ->
                step_id = "user"
                \/ (source (self w) <> SOURCE_REAUTH
                    /\ is_not_None (_name (self w)) = true) ->
                False
  end
  /\ (forall entry_data (w' : World t),
        match fst (async_step_reauth check entry_data w') with
        | inr (FORM _ _ errors _) => errors = ∅
        | inr _ => False
        | inl (AbortFlow _) => False
        | inl _ => True
        end)
  /\ (forall step_id' user_input' (w' : World PVPCOptionsFlowHandler.t),
        match fst (Host.handle_options step_id' user_input' w') with
        | inr (FORM _ _ errors _) => errors = ∅
        | inr _ => True
        | inl (AbortFlow _) => False
        | inl _ => True
        end).
Proof.
  intros out.
  assert (Hraise : forall sid w0 e,
             source (self w0) = source (self w) ->
             _name (self w0) = _name (self w) ->
             sid <> "user" ->
             verify_result check sid w0 = inl e ->
             match e with
             | AbortFlow reason => reason = "already_configured" /\ sid = "user"
             | _ =>
                 forall d, user_input = Some d -> fields_present sid d ->
                           sid = "user"
                           \/ (source (self w) <> SOURCE_REAUTH
                               /\ is_not_None (_name (self w)) = true) ->
                           False
             end).
  { intros sid w0 e Hsrc Hname Hsid Hv.
    destruct (verify_result_raise _ _ _ _ Hv) as [Hna Hsetup].
    rewrite Hsrc, Hname in Hsetup.
    assert (Hno : forall d, user_input = Some d -> fields_present sid d ->
                  sid = "user"
                  \/ (source (self w) <> SOURCE_REAUTH
                      /\ is_not_None (_name (self w)) = true) ->
                  False).
    { intros d _ _ [Hs|[Hs Hn]]; [exact (Hsid Hs)|].
      apply String.eqb_neq in Hs. destruct (Hsetup Hs) as [_ Hn'].
      rewrite Hn in Hn'. discriminate Hn'. }
    destruct e; try exact Hno. destruct (Hna reason eq_refl). }
  split; [|split].
  - subst out. unfold Host.handle, fields_present.
    destruct (String.eqb step_id "user") eqn:Hu.
    { apply String.eqb_eq in Hu. subst step_id.
      destruct user_input as [d|]; [|simpl; left; reflexivity].
      rewrite async_step_user_eq. unfold user_result.
      repeat match goal with
             | |- context [match ?x !! ?k with _ => _ end] =>
                 destruct (x !! k) eqn:?
             | |- context [if existsb ?f ?l then _ else _] => destruct (existsb f l)
             | |- context [if truthy ?v then _ else _] => destruct (truthy v)
             end; simpl; auto;
        intros d' Hd' (H1 & H2 & H3 & H4 & H5) _; inversion Hd'; subst d';
        repeat match goal with
               | H : is_Some (?x !! ?k), H' : ?x !! ?k = None |- _ =>
                   rewrite H' in H; destruct H as [? H]; discriminate H
               end. }
    destruct (String.eqb step_id "api_token") eqn:Ha.
    { apply String.eqb_eq in Ha. subst step_id.
      destruct user_input as [d|]; [|simpl; left; reflexivity].
      unfold async_step_api_token. unfold_monad. simpl.
      destruct (d !! CONF_API_TOKEN) as [token|] eqn:Htok; simpl.
      - rewrite _async_verify_eq. simpl.
        destruct (verify_result check "api_token" _) as [e|r] eqn:Hv.
        + apply (Hraise _ _ e) in Hv;
            [unfold fields_present in Hv; exact Hv
            |reflexivity|reflexivity|discriminate].
        + destruct r; auto.
          destruct (verify_result_form _ _ _ _ _ _ _ Hv) as (-> & -> & ->).
          right. repeat split; [discriminate|].
          rewrite after_verify_steps. apply last_snoc.
      - intros d' Hd' [x Hx] _. inversion Hd'; subst d'. congruence. }
    destruct (String.eqb step_id "reauth_confirm") eqn:Hrc;
      [|simpl; intros d _ []].
    apply String.eqb_eq in Hrc. subst step_id.
    destruct user_input as [d|]; [|simpl; left; reflexivity].
    unfold async_step_reauth_confirm. unfold_monad. simpl.
    destruct (dict_truthy d); simpl; [|left; reflexivity].
    destruct (d !! CONF_USE_API_TOKEN) as [use|] eqn:Huse; simpl.
    + rewrite _async_verify_eq. simpl.
      destruct (verify_result check "reauth_confirm" _) as [e|r] eqn:Hv.
      * apply (Hraise _ _ e) in Hv;
          [unfold fields_present in Hv; exact Hv
          |reflexivity|reflexivity|discriminate].
      * destruct r; auto.
        destruct (verify_result_form _ _ _ _ _ _ _ Hv) as (-> & -> & ->).
        right. repeat split; [discriminate|].
        rewrite after_verify_steps. apply last_snoc.
    + intros d' Hd' [x Hx] _. inversion Hd'; subst d'. congruence.
  - intros entry_data w'. unfold async_step_reauth, async_step_reauth_confirm.
    unfold_monad. simpl.
    repeat match goal with
           | |- context [match ?x !! ?k with _ => _ end] => destruct (x !! k)
           end; simpl; auto.
  - intros step_id' user_input' w'. options_cases; auto.
Qed.

(** ** The order of the setup flow *)

Section SetupOrder.

Variable check : Z -> Value -> bool.
Variables DEFAULT_NAME DEFAULT_TARIFF DEFAULT_POWER_KW : Value.

Abbreviation configure' :=
  (Host.configure check DEFAULT_NAME DEFAULT_TARIFF DEFAULT_POWER_KW).

Lemma setup_trace_start (store : list ConfigEntry) (now : Z) :
  setup_trace (Host.start_setup check DEFAULT_NAME DEFAULT_TARIFF DEFAULT_POWER_KW
                 store now).
Proof.
  exists ["user"], []. simpl. repeat split; auto; discriminate.
Qed.

Lemma Forall_user_snoc (us : list string) :
  Forall (eq "user") us -> Forall (eq "user") (us ++ ["user"]).
Proof. intros H. apply Forall_app; split; [exact H|]. repeat constructor. Qed.

Lemma head_app_keep (ts xs : list string) (s : string) :
  head ts = Some s -> head (ts ++ xs) = Some s.
Proof. destruct ts; simpl; [discriminate|auto]. Qed.

Lemma snoc_not_nil (us : list string) (s : string) : (us ++ [s])%list <> [].
Proof. intros H. apply app_eq_nil in H. destruct H; discriminate. Qed.

Lemma setup_trace_intro (w : World t) (st : Status) (us ts : list string) :
  steps w = (us ++ ts)%list -> us <> [] -> Forall (eq "user") us ->
  Forall token_phase_step ts -> source (self w) = SOURCE_USER ->
  match st with
  | AtStep cur_step =>
      (cur_step = "user" /\ ts = [])
      \/ (cur_step = "api_token"
          /\ truthy (_use_api_token (self w)) = true
          /\ head ts = Some "api_token"
          /\ _tariff (self w) = unique_id (self w))
  | Committed r =>
      exists title data, r = CREATE_ENTRY title data
        /\ data !! ATTR_TARIFF = Some (unique_id (self w))
        /\ if truthy (_use_api_token (self w))
           then head ts = Some "api_token"
                /\ exists pre, ts = (pre ++ ["api_token"; "_async_verify"])%list
           else ts = [] /\ data !! CONF_API_TOKEN = Some VNone
  | Aborted reason => reason = "already_configured"
  end ->
  setup_trace (mkFlow w st).
Proof. intros. exists us, ts. simpl. auto 10. Qed.

Lemma setup_trace_user_step (w : World t) (ev : Z * option (gmap string Value))
  (us : list string) :
  steps w = us -> us <> [] -> Forall (eq "user") us ->
  source (self w) = SOURCE_USER ->
  setup_trace (configure' (mkFlow w (AtStep "user")) ev).
Proof.
  intros Hsteps Hne Hus Hsrc. unfold Host.configure, Host.handle. simpl.
  destruct ev as [now [d|]]; simpl.
  - rewrite async_step_user_eq. unfold user_result. simpl.
    repeat match goal with
           | |- context [match ?x !! ?k with _ => _ end] =>
               destruct (x !! k) eqn:?
           | |- context [if existsb ?f ?l then _ else _] => destruct (existsb f l)
           | |- context [if truthy ?v then _ else _] => destruct (truthy v) eqn:?
           end; simpl.
    all: try (apply (setup_trace_intro _ _ (us ++ ["user"])%list []); simpl;
              [ rewrite Hsteps, app_nil_r; reflexivity
              | apply snoc_not_nil
              | apply Forall_user_snoc; assumption
              | constructor
              | assumption
              | first [ reflexivity
                      | left; split; reflexivity
                      | eexists _, _; split; [reflexivity|];
                        split; [reflexivity|];
                        match goal with
                        | H : truthy _ = false |- _ => rewrite H
                        end; split; reflexivity ] ]).
    apply (setup_trace_intro _ _ (us ++ ["user"])%list ["api_token"]); simpl.
    + rewrite Hsteps, <- app_assoc. reflexivity.
    + apply snoc_not_nil.
    + apply Forall_user_snoc; assumption.
    + repeat constructor.
    + assumption.
    + right. repeat split; assumption.
  - apply (setup_trace_intro _ _ (us ++ ["user"])%list []); simpl.
    + rewrite Hsteps, app_nil_r; reflexivity.
    + apply snoc_not_nil.
    + apply Forall_user_snoc; assumption.
    + constructor.
    + assumption.
    + left. split; reflexivity.
Qed.


Lemma after_verify_self (w : World t) :
  _use_api_token (self (after_verify check w)) = _use_api_token (self w)
  /\ source (self (after_verify check w)) = source (self w)
  /\ _tariff (self (after_verify check w)) = _tariff (self w)
  /\ unique_id (self (after_verify check w)) = unique_id (self w).
Proof. unfold after_verify. destruct (truthy _); repeat split; reflexivity. Qed.

Lemma Forall_token_phase_snoc (ts xs : list string) :
  Forall token_phase_step ts -> Forall token_phase_step xs ->
  Forall token_phase_step (ts ++ xs).
Proof. intros H1 H2. apply Forall_app; split; assumption. Qed.

Lemma setup_trace_token_step (w : World t) (ev : Z * option (gmap string Value))
  (us ts : list string) :
  steps w = (us ++ ts)%list -> us <> [] -> Forall (eq "user") us ->
  Forall token_phase_step ts -> head ts = Some "api_token" ->
  truthy (_use_api_token (self w)) = true ->
  _tariff (self w) = unique_id (self w) ->
  source (self w) = SOURCE_USER ->
  setup_trace (configure' (mkFlow w (AtStep "api_token")) ev).
Proof.
  intros Hsteps Hne Hus Hts Hhd Hflag Hfiled Hsrc.
  assert (Hone : Forall token_phase_step ["api_token"])
    by (repeat constructor).
  assert (Htwo : Forall token_phase_step ["api_token"; "_async_verify"])
    by (constructor; [left; reflexivity|constructor; [right; reflexivity|constructor]]).
  unfold Host.configure, Host.handle. simpl.
  destruct ev as [now [d|]]; simpl.
  - unfold async_step_api_token. unfold_monad. simpl.
    destruct (d !! CONF_API_TOKEN) as [token|]; simpl.
    + rewrite _async_verify_eq. unfold verify_result. simpl.
      rewrite Hflag, Hsrc. simpl.
      destruct (check now token); simpl;
        [destruct (is_not_None (_name (self w))); simpl|].
      all: apply (setup_trace_intro _ _ us (ts ++ ["api_token"; "_async_verify"])%list);
        try assumption;
        [ rewrite after_verify_steps; simpl; rewrite Hsteps, <- !app_assoc; reflexivity
        | apply Forall_token_phase_snoc; assumption
        | rewrite (proj1 (proj2 (after_verify_self _))); assumption
        | destruct (after_verify_self
                      (set_self (set_api_token token)
                         (add_step "api_token" (set_clock now w))))
            as (Hq1 & _ & Hq3 & Hq4);
          rewrite ?Hq1, ?Hq3, ?Hq4; simpl; rewrite ?Hflag ].
      * eexists _, _. split; [reflexivity|].
        split; [rewrite <- Hfiled; reflexivity|].
        split; [apply head_app_keep; assumption|]. exists ts. reflexivity.
      * right. repeat split; [apply head_app_keep|]; assumption.
      * right. repeat split; [apply head_app_keep|]; assumption.
    + apply (setup_trace_intro _ _ us (ts ++ ["api_token"])%list); simpl;
        try assumption.
      * rewrite Hsteps, <- app_assoc. reflexivity.
      * apply Forall_token_phase_snoc; assumption.
      * right. repeat split; [assumption|apply head_app_keep; assumption|assumption].
  - apply (setup_trace_intro _ _ us (ts ++ ["api_token"])%list); simpl;
      try assumption.
    + rewrite Hsteps, <- app_assoc. reflexivity.
    + apply Forall_token_phase_snoc; assumption.
    + right. repeat split; [assumption|apply head_app_keep; assumption|assumption].
Qed.

Lemma setup_trace_configure (f : Flow t) (ev : Z * option (gmap string Value)) :
  setup_trace f -> setup_trace (configure' f ev).
Proof.
  intros Hf. destruct f as [w st].
  destruct st as [cur_step| |]; [|exact Hf|exact Hf].
  destruct Hf as (us & ts & Hsteps & Hne & Hus & Hts & Hsrc & Hst). simpl in *.
  destruct Hst as [[-> ->]|(-> & Hflag & Hhd & Hfiled)].
  - rewrite app_nil_r in Hsteps.
    apply (setup_trace_user_step w ev us); assumption.
  - apply (setup_trace_token_step w ev us ts); assumption.
Qed.

Lemma setup_trace_run (f : Flow t) (evs : list (Z * option (gmap string Value))) :
  setup_trace f ->
  setup_trace (Host.run check DEFAULT_NAME DEFAULT_TARIFF DEFAULT_POWER_KW f evs).
Proof.
  revert f. induction evs as [|ev evs IH]; intros f Hf; simpl; [exact Hf|].
  apply IH, setup_trace_configure, Hf.
Qed.

End SetupOrder.

(** C6, as stated, fails: with [use_api_token] unchecked the first
    step creates the record itself; the verification step is never
    entered. *)
Lemma setup_without_token_skips_verification :
  status setup_session_without_token
  = Committed (CREATE_ENTRY (VStr "PVPC")
                 {[ CONF_NAME := VStr "PVPC";
                    ATTR_TARIFF := VStr "2.0TD";
                    ATTR_POWER := VFloat (33 # 10);
                    ATTR_POWER_P3 := VFloat (33 # 10);
                    CONF_API_TOKEN := VNone ]})
  /\ steps (world setup_session_without_token) = ["user"; "user"]
  /\ ~ every_setup_commit_verifies reject_all VNone VNone VNone.
Proof.
  split; [vm_compute; reflexivity|]. split; [vm_compute; reflexivity|].
  intros H.
  specialize (H [] 0%Z [(1%Z, Some submit_without_token)] _ eq_refl).
  apply list_elem_of_In in H. vm_compute in H.
  destruct H as [H|[H|[]]]; discriminate H.
Qed.

(** C6, amended. Every record the setup flow commits is a created
    entry, and the handlers entered up to then are: the user step, one
    or more times and nothing else, when [use_api_token] is unchecked,
    the record being created by the user step with a null token and
    the verification step never entered; and, when [use_api_token] is
    checked, the user step followed by the token phase, which starts
    with the token step and ends with the token step followed by the
    verification step that creates the record. *)
Theorem setup_order_follows_token_choice
  (check : Z -> Value -> bool) (DEFAULT_NAME DEFAULT_TARIFF DEFAULT_POWER_KW : Value)
  (store : list ConfigEntry) (now : Z) (evs : list (Z * option (gmap string Value)))
  (r : FlowResult) :
  let f := Host.run check DEFAULT_NAME DEFAULT_TARIFF DEFAULT_POWER_KW
             (Host.start_setup check DEFAULT_NAME DEFAULT_TARIFF DEFAULT_POWER_KW
                store now) evs in
  status f = Committed r ->
  exists title data us ts,
    r = CREATE_ENTRY title data
    /\ steps (world f) = (us ++ ts)%list
    /\ us <> [] /\ Forall (eq "user") us /\ Forall token_phase_step ts
    /\ if truthy (_use_api_token (self (world f)))
       then head ts = Some "api_token"
            /\ exists pre, ts = (pre ++ ["api_token"; "_async_verify"])%list
       else ts = [] /\ data !! CONF_API_TOKEN = Some VNone.
Proof.
  intros f Hst.
  destruct (setup_trace_run check DEFAULT_NAME DEFAULT_TARIFF DEFAULT_POWER_KW _ evs
              (setup_trace_start check DEFAULT_NAME DEFAULT_TARIFF DEFAULT_POWER_KW
                 store now))
    as (us & ts & Hsteps & Hne & Hus & Hts & _ & Hcase).
  fold f in Hsteps, Hcase. rewrite Hst in Hcase.
  destruct Hcase as (title & data & -> & _ & Hcase).
  exists title, data, us, ts. repeat split; assumption.
Qed.

(** An instance: the session that submits the first form with the box
    unchecked. *)
Lemma setup_order_follows_token_choice_witness :
  exists title data us ts,
    CREATE_ENTRY (VStr "PVPC")
      (<[ CONF_API_TOKEN := VNone ]> (delete CONF_USE_API_TOKEN submit_without_token))
    = CREATE_ENTRY title data
    /\ steps (world setup_session_without_token) = (us ++ ts)%list
    /\ us <> [] /\ Forall (eq "user") us /\ Forall token_phase_step ts
    /\ if truthy (_use_api_token (self (world setup_session_without_token)))
       then head ts = Some "api_token"
            /\ exists pre, ts = (pre ++ ["api_token"; "_async_verify"])%list
       else ts = [] /\ data !! CONF_API_TOKEN = Some VNone.
Proof.
  exact (setup_order_follows_token_choice reject_all VNone VNone VNone [] 0
           [(1%Z, Some submit_without_token)] _ eq_refl).
Defined.

(** The store stays well filed: a record the setup flow commits is
    saved under the tariff id it holds. *)
Lemma setup_commit_keeps_store_wf
  (check : Z -> Value -> bool) (DEFAULT_NAME DEFAULT_TARIFF DEFAULT_POWER_KW : Value)
  (store store' : list ConfigEntry) (now : Z)
  (evs : list (Z * option (gmap string Value))) (r : FlowResult) (new_id : string) :
  let f := Host.run check DEFAULT_NAME DEFAULT_TARIFF DEFAULT_POWER_KW
             (Host.start_setup check DEFAULT_NAME DEFAULT_TARIFF DEFAULT_POWER_KW
                store now) evs in
  store_wf store ->
  status f = Committed r ->
  persist_config new_id (unique_id (self (world f))) r store = inr store' ->
  store_wf store'.
Proof.
  intros f Hwf Hst Hp.
  destruct (setup_trace_run check DEFAULT_NAME DEFAULT_TARIFF DEFAULT_POWER_KW _ evs
              (setup_trace_start check DEFAULT_NAME DEFAULT_TARIFF DEFAULT_POWER_KW
                 store now))
    as (us & ts & _ & _ & _ & _ & _ & Hcase).
  fold f in Hcase. rewrite Hst in Hcase.
  destruct Hcase as (title & data & -> & Hfiled & _).
  simpl in Hp. inversion Hp; subst store'. intros e He.
  apply elem_of_app in He. destruct He as [He|He]; [apply Hwf, He|].
  apply list_elem_of_singleton in He. subst e. exact Hfiled.
Qed.

(** * Further properties of the handlers *)

(** ** The entry step of a re-authentication *)

(** X1. Started on entry data that holds name, tariff and both powers,
    [async_step_reauth] copies them into the flow, takes the token with
    [get] (so a missing token is [None]), sets [use_api_token] to
    "the token is not [None]", and shows the confirmation form
    prefilled with that flag and that token. It calls no validator and
    leaves the client, the source, the unique id and the stored
    entries as they were. *)
Theorem reauth_step_loads_entry
  (check : Z -> Value -> bool) (entry_data : gmap string Value)
  (name tariff power power_p3 : Value) (w : World t) :
  entry_data !! CONF_NAME = Some name ->
  entry_data !! ATTR_TARIFF = Some tariff ->
  entry_data !! ATTR_POWER = Some power ->
  entry_data !! ATTR_POWER_P3 = Some power_p3 ->
  let token := match entry_data !! CONF_API_TOKEN with
               | Some v => v
               | None => VNone
               end in
  let out := async_step_reauth check entry_data w in
  fst out = inr (FORM "reauth_confirm"
                   (Some [mkKey Required CONF_USE_API_TOKEN
                            (VBool (is_not_None token)) v_bool;
                          mkKey Optional CONF_API_TOKEN token v_str])
                   ∅ ∅)
  /\ self (snd out)
     = mk name tariff power power_p3 (VBool (is_not_None token)) token
          (_api (self w)) (source (self w)) (unique_id (self w))
  /\ calls (snd out) = calls w
  /\ hass (snd out) = hass w.
Proof.
  intros Hn Ht Hp Hp3 token out. subst out token.
  unfold async_step_reauth, async_step_reauth_confirm, dict_get.
  unfold_monad. simpl. rewrite Hn. simpl. rewrite Ht. simpl.
  rewrite Hp. simpl. rewrite Hp3. simpl.
  repeat split; reflexivity.
Qed.

(** An instance: the stored record, which holds a token. *)
Lemma reauth_step_loads_entry_witness :
  fst (async_step_reauth reject_all (entry_data stored_entry)
         (mkWorld (new SOURCE_REAUTH) [stored_entry] 0 [] []))
  = inr (FORM "reauth_confirm"
           (Some [mkKey Required CONF_USE_API_TOKEN (VBool true) v_bool;
                  mkKey Optional CONF_API_TOKEN (VStr "old-token") v_str])
           ∅ ∅).
Proof.
  exact (proj1 (reauth_step_loads_entry reject_all (entry_data stored_entry)
                  (VStr "PVPC") (VStr "2.0TD") (VFloat (33 # 10)) (VFloat (33 # 10))
                  (mkWorld (new SOURCE_REAUTH) [stored_entry] 0 [] [])
                  eq_refl eq_refl eq_refl eq_refl)).
Defined.

(** X2. [async_step_reauth] subscripts name, tariff, power and
    power_p3 in that order: it raises [KeyError] for the first of them
    the entry data lacks, and shows the confirmation form exactly when
    none is missing. Whatever happens, the token and the flag have been
    loaded by then, no record is handed to the host and no validator
    call is made. *)
Theorem reauth_step_first_missing_key
  (check : Z -> Value -> bool) (entry_data : gmap string Value) (w : World t) :
  let out := async_step_reauth check entry_data w in
  let token := dict_get entry_data CONF_API_TOKEN VNone in
  match first_missing [CONF_NAME; ATTR_TARIFF; ATTR_POWER; ATTR_POWER_P3] entry_data with
  | Some k => fst out = inl (KeyError k)
  | None => exists schema, fst out = inr (FORM "reauth_confirm" (Some schema) ∅ ∅)
  end
  /\ _api_token (self (snd out)) = token
  /\ _use_api_token (self (snd out)) = VBool (is_not_None token)
  /\ calls (snd out) = calls w.
Proof.
  intros out token. subst out token.
  unfold async_step_reauth, async_step_reauth_confirm, first_missing.
  unfold_monad. simpl.
  destruct (entry_data !! CONF_NAME); simpl; [|repeat split; reflexivity].
  destruct (entry_data !! ATTR_TARIFF); simpl; [|repeat split; reflexivity].
  destruct (entry_data !! ATTR_POWER); simpl; [|repeat split; reflexivity].
  destruct (entry_data !! ATTR_POWER_P3); simpl; [|repeat split; reflexivity].
  split; [eexists; reflexivity|]. repeat split; reflexivity.
Qed.

(** ** Empty submissions *)

Lemma dict_truthy_empty : dict_truthy ∅ = false.
Proof. reflexivity. Qed.

Lemma dict_truthy_false (d : gmap string Value) : dict_truthy d = false -> d = ∅.
Proof.
  unfold dict_truthy. intros H. apply map_size_empty_iff.
  destruct (size d); [reflexivity|discriminate H].
Qed.

(** X3. The confirmation step tests [if user_input:], so an empty
    submission counts as no submission: exactly when the input is
    [None] or the empty dictionary, the step shows the confirmation
    form again, prefilled from the flow's current flag and token,
    without touching the flow, without a validator call and without
    raising for the missing [use_api_token] key. *)
Theorem reauth_confirm_empty_submission
  (check : Z -> Value -> bool) (user_input : option (gmap string Value))
  (w : World t) :
  (user_input = None \/ user_input = Some ∅)
  <-> async_step_reauth_confirm check user_input w
      = (inr (FORM "reauth_confirm"
                (Some [mkKey Required CONF_USE_API_TOKEN (_use_api_token (self w)) v_bool;
                       mkKey Optional CONF_API_TOKEN (_api_token (self w)) v_str])
                ∅ ∅),
         add_step "reauth_confirm" w).
Proof.
  split.
  - intros [->| ->]; reflexivity.
  - destruct user_input as [d|]; [|left; reflexivity]. intros H. right. f_equal.
    apply dict_truthy_false.
    destruct (dict_truthy d) eqn:Hd; [exfalso|reflexivity].
    unfold async_step_reauth_confirm in H. unfold_monad. simpl in H.
    rewrite Hd in H. simpl in H.
    destruct (d !! CONF_USE_API_TOKEN); simpl in H; [|discriminate H].
    rewrite _async_verify_eq in H. inversion H as [[Hr Hw]].
    apply (f_equal steps) in Hw. rewrite after_verify_steps in Hw. simpl in Hw.
    apply (f_equal (@length string)) in Hw. rewrite !length_app in Hw.
    simpl in Hw. lia.
Qed.

(** X4. The token step of the setup flow subscripts the token, so it
    does not forgive an empty submission. After a rejected token the
    flow holds that token and waits at the token form; a following
    submission without the token key raises [KeyError], makes no
    validator call and changes nothing in the flow. *)
Theorem setup_token_step_needs_token
  (check : Z -> Value -> bool) (d d' : gmap string Value) (token : Value)
  (w : World t) :
  d !! CONF_API_TOKEN = Some token ->
  truthy (_use_api_token (self w)) = true ->
  check (clock w) token = false ->
  d' !! CONF_API_TOKEN = None ->
  let w1 := snd (async_step_api_token check (Some d) w) in
  _api_token (self w1) = token
  /\ fst (async_step_api_token check (Some d') w1) = inl (KeyError CONF_API_TOKEN)
  /\ self (snd (async_step_api_token check (Some d') w1)) = self w1
  /\ calls (snd (async_step_api_token check (Some d') w1)) = calls w1.
Proof.
  intros Hd Huse Hchk Hd' w1. subst w1.
  rewrite (api_token_step_verifies check d token w Hd), _async_verify_eq. simpl.
  unfold async_step_api_token at 1 2 3. unfold_monad. simpl. rewrite Hd'. simpl.
  unfold after_verify. simpl. rewrite Huse. repeat split; reflexivity.
Qed.

(** An instance: a rejected token followed by an empty submission. *)
Lemma setup_token_step_needs_token_witness :
  fst (async_step_api_token reject_all (Some ∅)
         (snd (async_step_api_token reject_all
                 (Some {[ CONF_API_TOKEN := VStr "bad-token" ]}) setup_with_token)))
  = inl (KeyError CONF_API_TOKEN).
Proof.
  exact (proj1 (proj2 (setup_token_step_needs_token reject_all
                         {[ CONF_API_TOKEN := VStr "bad-token" ]} ∅ (VStr "bad-token")
                         setup_with_token eq_refl eq_refl eq_refl eq_refl))).
Defined.

(** ** What the handlers hand over and what they leave alone *)

Lemma record_dom (name tariff power power_p3 token : Value) :
  dom ({[ CONF_NAME := name; ATTR_TARIFF := tariff; ATTR_POWER := power;
          ATTR_POWER_P3 := power_p3; CONF_API_TOKEN := token ]} : gmap string Value)
  = record_keys.
Proof. unfold record_keys. rewrite !dom_insert_L, dom_singleton_L. set_solver. Qed.

Lemma verify_result_title (check : Z -> Value -> bool) (step_id : string)
  (w : World t) (title : Value) (data : gmap string Value) :
  verify_result check step_id w = inr (CREATE_ENTRY title data) ->
  title = _name (self w) /\ title <> VNone.
Proof.
  unfold verify_result.
  destruct (truthy _ && negb _); [discriminate|].
  destruct (String.eqb _ _); [discriminate|].
  destruct (is_not_None (_name (self w))) eqn:Hn; [|discriminate].
  intros H; inversion H; subst. split; [reflexivity|].
  intros Heq. rewrite Heq in Hn. discriminate Hn.
Qed.

(** X5. Whatever step of the setup / re-authentication flow hands a
    record to the host, the record has exactly the keys name, tariff,
    power, power_p3 and api_token: the [use_api_token] flag is never
    stored. When the record is a created entry, its title is the name
    the record holds. *)
Theorem committed_record_shape
  (check : Z -> Value -> bool) (DEFAULT_NAME DEFAULT_TARIFF DEFAULT_POWER_KW : Value)
  (step_id : string) (user_input : option (gmap string Value)) (w : World t)
  (r : FlowResult) (data : gmap string Value) :
  fst (Host.handle check DEFAULT_NAME DEFAULT_TARIFF DEFAULT_POWER_KW
         step_id user_input w) = inr r ->
  committed_data r = Some data ->
  dom data = record_keys
  /\ data !! CONF_USE_API_TOKEN = None
  /\ forall title data', r = CREATE_ENTRY title data' -> data !! CONF_NAME = Some title.
Proof.
  intros Hr Hc.
  assert (Hshape : dom data = record_keys
                   /\ forall title data', r = CREATE_ENTRY title data' ->
                                          data !! CONF_NAME = Some title).
  { unfold Host.handle in Hr.
    destruct (String.eqb step_id "user").
    { destruct user_input as [d|];
        [|simpl in Hr; inversion Hr; subst; discriminate Hc].
      rewrite async_step_user_eq in Hr. unfold user_result in Hr.
      repeat match type of Hr with
             | context [match ?x !! ?k with _ => _ end] => destruct (x !! k)
             | context [if existsb ?f ?l then _ else _] => destruct (existsb f l)
             | context [if truthy ?v then _ else _] => destruct (truthy v)
             end; simpl in Hr; try discriminate Hr;
        inversion Hr; subst; simpl in Hc; try discriminate Hc;
        inversion Hc; subst.
      split; [apply record_dom|].
      intros title data' H; inversion H; subst; reflexivity. }
    assert (Hv : forall sid w0, verify_result check sid w0 = inr r ->
                 dom data = record_keys
                 /\ forall title data', r = CREATE_ENTRY title data' ->
                                        data !! CONF_NAME = Some title).
    { intros sid w0 Hres.
      destruct (verify_result_commit _ _ _ _ _ Hres Hc) as [-> _].
      split; [apply record_dom|].
      intros title data' ->.
      destruct (verify_result_title _ _ _ _ _ Hres) as [-> _]. reflexivity. }
    destruct (String.eqb step_id "api_token").
    { destruct user_input as [d|];
        [|simpl in Hr; inversion Hr; subst; discriminate Hc].
      unfold async_step_api_token in Hr. unfold_monad. simpl in Hr.
      destruct (d !! CONF_API_TOKEN); simpl in Hr; [|discriminate Hr].
      rewrite _async_verify_eq in Hr. simpl in Hr. exact (Hv _ _ Hr). }
    destruct (String.eqb step_id "reauth_confirm"); [|discriminate Hr].
    destruct user_input as [d|];
      [|simpl in Hr; inversion Hr; subst; discriminate Hc].
    unfold async_step_reauth_confirm in Hr. unfold_monad. simpl in Hr.
    destruct (dict_truthy d); simpl in Hr;
      [|inversion Hr; subst; discriminate Hc].
    destruct (d !! CONF_USE_API_TOKEN); simpl in Hr; [|discriminate Hr].
    rewrite _async_verify_eq in Hr. simpl in Hr. exact (Hv _ _ Hr). }
  destruct Hshape as [Hdom Htitle]. split; [exact Hdom|]. split; [|exact Htitle].
  apply not_elem_of_dom. rewrite Hdom. unfold record_keys. intros H.
  repeat (apply elem_of_union in H; destruct H as [H|H]);
    apply elem_of_singleton in H; discriminate H.
Qed.

(** An instance: the first form submitted with the box unchecked. *)
Lemma committed_record_shape_witness :
  dom (<[ CONF_API_TOKEN := VNone ]> (delete CONF_USE_API_TOKEN submit_without_token)
       : gmap string Value) = record_keys.
Proof.
  exact (proj1 (committed_record_shape reject_all VNone VNone VNone "user"
                  (Some submit_without_token) (mkWorld (new SOURCE_USER) [] 0 [] [])
                  (CREATE_ENTRY (VStr "PVPC")
                     (<[ CONF_API_TOKEN := VNone ]>
                        (delete CONF_USE_API_TOKEN submit_without_token)))
                  _ eq_refl eq_refl)).
Defined.

Lemma after_verify_frame (check : Z -> Value -> bool) (w : World t) :
  hass (after_verify check w) = hass w
  /\ clock (after_verify check w) = clock w
  /\ source (self (after_verify check w)) = source (self w)
  /\ steps (after_verify check w) = (steps w ++ ["_async_verify"])%list
  /\ (calls (after_verify check w) = calls w
      \/ exists c, calls (after_verify check w) = (calls w ++ [c])%list
                   /\ call_time c = clock w
                   /\ call_token c = _api_token (self w)).
Proof.
  unfold after_verify. destruct (truthy _); simpl; repeat split; auto.
  right. eexists. repeat split.
Qed.

(** X6. No step handler of the setup / re-authentication flow writes
    to the stored entries, moves the clock or changes the flow's
    source; a handler only appends to the logs. One invocation makes at
    most one validator call, stamped with the current time, and the
    user step makes none. *)
Theorem handlers_leave_store_alone
  (check : Z -> Value -> bool) (DEFAULT_NAME DEFAULT_TARIFF DEFAULT_POWER_KW : Value)
  (step_id : string) (user_input : option (gmap string Value)) (w : World t) :
  let out := Host.handle check DEFAULT_NAME DEFAULT_TARIFF DEFAULT_POWER_KW
               step_id user_input w in
  hass (snd out) = hass w
  /\ clock (snd out) = clock w
  /\ source (self (snd out)) = source (self w)
  /\ (exists new, steps (snd out) = (steps w ++ new)%list)
  /\ (calls (snd out) = calls w
      \/ exists c, calls (snd out) = (calls w ++ [c])%list
                   /\ call_time c = clock w /\ step_id <> "user").
Proof.
  intros out. subst out. unfold Host.handle.
  destruct (String.eqb step_id "user") eqn:Hu.
  { destruct user_input as [d|].
    - rewrite async_step_user_eq. unfold user_result.
      repeat match goal with
             | |- context [match ?x !! ?k with _ => _ end] => destruct (x !! k)
             | |- context [if existsb ?f ?l then _ else _] => destruct (existsb f l)
             | |- context [if truthy ?v then _ else _] => destruct (truthy v)
             end; simpl; repeat split; auto;
        first [ exists ["user"]; reflexivity
              | exists ["user"; "api_token"]; rewrite <- app_assoc; reflexivity ].
    - simpl. repeat split; auto. exists ["user"]. reflexivity. }
  assert (Hne : step_id <> "user")
    by (intros ->; rewrite String.eqb_refl in Hu; discriminate Hu).
  assert (Hv : forall sid w0,
             hass w0 = hass w -> clock w0 = clock w ->
             source (self w0) = source (self w) -> calls w0 = calls w ->
             (exists new, steps w0 = (steps w ++ new)%list) ->
             let out := _async_verify check sid w0 in
             hass (snd out) = hass w
             /\ clock (snd out) = clock w
             /\ source (self (snd out)) = source (self w)
             /\ (exists new, steps (snd out) = (steps w ++ new)%list)
             /\ (calls (snd out) = calls w
                 \/ exists c, calls (snd out) = (calls w ++ [c])%list
                              /\ call_time c = clock w /\ step_id <> "user")).
  { intros sid w0 Hh Hc Hs Hcalls [new Hsteps] out0. subst out0.
    rewrite _async_verify_eq. simpl.
    destruct (after_verify_frame check w0) as (H1 & H2 & H3 & H4 & H5).
    rewrite H1, H2, H3, H4, Hh, Hc, Hs, Hsteps, Hcalls in *.
    repeat split.
    - exists (new ++ ["_async_verify"])%list. rewrite app_assoc. reflexivity.
    - destruct H5 as [H5|(c & H5 & H6 & _)]; [left; exact H5|].
      right. exists c. repeat split; assumption. }
  destruct (String.eqb step_id "api_token").
  { destruct user_input as [d|].
    - unfold async_step_api_token. unfold_monad. simpl.
      destruct (d !! CONF_API_TOKEN); simpl.
      + apply Hv; try reflexivity. exists ["api_token"]. reflexivity.
      + repeat split; auto. exists ["api_token"]. reflexivity.
    - simpl. repeat split; auto. exists ["api_token"]. reflexivity. }
  destruct (String.eqb step_id "reauth_confirm").
  { destruct user_input as [d|].
    - unfold async_step_reauth_confirm. unfold_monad. simpl.
      destruct (dict_truthy d); simpl.
      + destruct (d !! CONF_USE_API_TOKEN); simpl.
        * apply Hv; try reflexivity. exists ["reauth_confirm"]. reflexivity.
        * repeat split; auto. exists ["reauth_confirm"]. reflexivity.
      + repeat split; auto. exists ["reauth_confirm"]. reflexivity.
    - simpl. repeat split; auto. exists ["reauth_confirm"]. reflexivity. }
  simpl. repeat split; auto. exists []. rewrite app_nil_r. reflexivity.
Qed.

(** ** How the verification step ends *)

Lemma verify_result_rejected (check : Z -> Value -> bool) (step_id : string)
  (w : World t) :
  verify_result check step_id w = inr (FORM step_id None invalid_auth ∅)
  <-> truthy (_use_api_token (self w)) = true
      /\ check (clock w) (_api_token (self w)) = false.
Proof.
  unfold verify_result, invalid_auth.
  destruct (truthy (_use_api_token (self w))); simpl;
    [destruct (check (clock w) (_api_token (self w))); simpl|].
  - split; [|intros [_ H]; discriminate H].
    destruct (String.eqb _ _); [|destruct (is_not_None _)];
      intros H; discriminate H.
  - split; [intros _; split; reflexivity|reflexivity].
  - split; [|intros [H _]; discriminate H].
    destruct (String.eqb _ _); [|destruct (is_not_None _)];
      intros H; discriminate H.
Qed.

(** X7. The flow's source decides how the verification step can end.
    In a re-authentication it never creates an entry and never trips
    the assertion on the name: whatever it returns is the rejection
    form or the update for the entry [None] with the flow's record.
    Outside a re-authentication it never returns an update; it creates
    the entry, titled with the flow's name, only when that name is not
    [None], and what it raises is [AssertionError], for a [None] name,
    after the validator (when the flag is set) has been called and has
    accepted. In both, the rejection form is returned exactly when the
    flag is set and the validator rejects. Whether the update of a
    re-authentication raises is not part of the statement. *)
Theorem verify_outcome_by_source
  (check : Z -> Value -> bool) (step_id : string) (w : World t) :
  let out := _async_verify check step_id w in
  (source (self w) = SOURCE_REAUTH ->
     fst out <> inl AssertionError
     /\ forall r, fst out = inr r ->
                  r = FORM step_id None invalid_auth ∅
                  \/ r = UPDATE_RELOAD_ABORT None (record_of (self w)))
  /\ (source (self w) <> SOURCE_REAUTH ->
        forall entry data, fst out <> inr (UPDATE_RELOAD_ABORT entry data))
  /\ (forall title data,
        fst out = inr (CREATE_ENTRY title data) ->
        source (self w) <> SOURCE_REAUTH /\ title = _name (self w)
        /\ title <> VNone /\ data = record_of (self w))
  /\ (forall e,
        fst out = inl e ->
        source (self w) <> SOURCE_REAUTH ->
        e = AssertionError /\ _name (self w) = VNone
        /\ (truthy (_use_api_token (self w)) = true ->
            check (clock w) (_api_token (self w)) = true
            /\ calls (snd out)
               = (calls w ++ [mkCall (clock w) (_api_token (self w)) true])%list))
  /\ (fst out = inr (FORM step_id None invalid_auth ∅)
      <-> truthy (_use_api_token (self w)) = true
          /\ check (clock w) (_api_token (self w)) = false).
Proof.
  intros out. subst out. rewrite _async_verify_eq. simpl.
  split; [|split; [|split; [|split]]].
  - intros Hsrc. split.
    + intros H. unfold verify_result in H. rewrite Hsrc, String.eqb_refl in H.
      destruct (truthy _ && negb _); discriminate H.
    + intros r H. unfold verify_result, invalid_auth in *.
      rewrite Hsrc, String.eqb_refl in H.
      destruct (truthy _ && negb _); inversion H; subst;
        first [left; reflexivity|right; reflexivity].
  - intros Hsrc entry data H. apply String.eqb_neq in Hsrc.
    unfold verify_result in H. rewrite Hsrc in H.
    destruct (truthy _ && negb _); [discriminate H|].
    destruct (is_not_None _); discriminate H.
  - intros title data H.
    destruct (verify_result_title _ _ _ _ _ H) as [Ht Hn].
    destruct (verify_result_commit _ _ _ _ _ H eq_refl) as [Hd _].
    repeat split; auto.
    intros Hsrc. unfold verify_result in H. rewrite Hsrc, String.eqb_refl in H.
    destruct (truthy _ && negb _); discriminate H.
  - intros e H Hsrc. apply String.eqb_neq in Hsrc.
    destruct (verify_result_raise _ _ _ _ H) as [_ Hsetup].
    destruct (Hsetup Hsrc) as [-> Hn].
    split; [reflexivity|].
    split; [destruct (_name (self w)); [reflexivity|discriminate Hn..]|].
    intros Huse. unfold verify_result in H. rewrite Huse in H.
    destruct (check (clock w) (_api_token (self w))) eqn:Hchk;
      simpl in H; [|discriminate H].
    split; [reflexivity|].
    rewrite after_verify_calls, Huse. unfold the_call. rewrite Hchk. reflexivity.
  - apply verify_result_rejected.
Qed.

(** ** The first step of the setup flow *)

(** X8. The first step checks the tariff before it reads anything
    else. A submission without a tariff raises [KeyError] with the
    flow wholly untouched; a submission whose tariff is already filed
    aborts even when its other fields are missing, and the abort
    leaves name, tariff, powers, flag and token of the flow as they
    were: only the unique id has been set. Neither case calls the
    validator. *)
Theorem known_tariff_aborts_before_fields
  (check : Z -> Value -> bool) (DEFAULT_NAME DEFAULT_TARIFF DEFAULT_POWER_KW : Value)
  (d : gmap string Value) (w : World t) :
  let out := async_step_user check DEFAULT_NAME DEFAULT_TARIFF DEFAULT_POWER_KW
               (Some d) w in
  (d !! ATTR_TARIFF = None ->
     fst out = inl (KeyError ATTR_TARIFF) /\ self (snd out) = self w)
  /\ (forall tariff e,
        d !! ATTR_TARIFF = Some tariff ->
        e ∈ hass w -> entry_unique_id e = tariff ->
        fst out = inl (AbortFlow "already_configured")
        /\ self (snd out) = set_unique_id tariff (self w))
  /\ ((d !! ATTR_TARIFF = None
       \/ exists e, e ∈ hass w /\ d !! ATTR_TARIFF = Some (entry_unique_id e)) ->
      calls (snd out) = calls w /\ hass (snd out) = hass w).
Proof.
  intros out. subst out. rewrite async_step_user_eq. unfold user_result.
  assert (Hex : forall tariff e, e ∈ hass w -> entry_unique_id e = tariff ->
                existsb (fun e => bool_decide (entry_unique_id e = tariff)) (hass w)
                = true).
  { intros tariff e He Hu. apply existsb_exists. exists e.
    split; [apply list_elem_of_In; exact He|]. apply bool_decide_eq_true. exact Hu. }
  split; [|split].
  - intros ->. split; reflexivity.
  - intros tariff e Ht He Hu. rewrite Ht, (Hex tariff e He Hu). split; reflexivity.
  - intros [->|(e & He & Ht)]; [split; reflexivity|].
    rewrite Ht, (Hex _ e He eq_refl). split; reflexivity.
Qed.

(** X9. The two steps of a setup with a token compose: the name,
    tariff and powers typed into the first form and the token typed
    into the second make up the created entry, which is titled with
    the name; the unchecked flag is not stored; the validator is called
    once, at the time of the second step, on the typed token. *)
Theorem setup_two_steps_commit
  (check : Z -> Value -> bool) (DEFAULT_NAME DEFAULT_TARIFF DEFAULT_POWER_KW : Value)
  (d1 d2 : gmap string Value) (name tariff power power_p3 use token : Value)
  (now : Z) (w : World t) :
  d1 !! CONF_NAME = Some name ->
  d1 !! ATTR_TARIFF = Some tariff ->
  d1 !! ATTR_POWER = Some power ->
  d1 !! ATTR_POWER_P3 = Some power_p3 ->
  d1 !! CONF_USE_API_TOKEN = Some use ->
  truthy use = true ->
  name <> VNone ->
  source (self w) <> SOURCE_REAUTH ->
  (forall e, e ∈ hass w -> entry_unique_id e <> tariff) ->
  d2 !! CONF_API_TOKEN = Some token ->
  check now token = true ->
  let out1 := async_step_user check DEFAULT_NAME DEFAULT_TARIFF DEFAULT_POWER_KW
                (Some d1) w in
  let out2 := async_step_api_token check (Some d2) (set_clock now (snd out1)) in
  fst out1 = inr (FORM "api_token"
                    (Some [mkKey Required CONF_API_TOKEN (_api_token (self w)) v_str])
                    ∅ {[ "mail_to_link" := _MAIL_TO_LINK ]})
  /\ fst out2 = inr (CREATE_ENTRY name
                       {[ CONF_NAME := name;
                          ATTR_TARIFF := tariff;
                          ATTR_POWER := power;
                          ATTR_POWER_P3 := power_p3;
                          CONF_API_TOKEN := token ]})
  /\ calls (snd out2) = (calls w ++ [mkCall now token true])%list
  /\ unique_id (self (snd out2)) = tariff.
Proof.
  intros Hn Ht Hp Hp3 Hu Huse Hname Hsrc Hfree Hd2 Hchk out1 out2.
  subst out2 out1. rewrite async_step_user_eq. unfold user_result.
  rewrite Ht, Hn, Hp, Hp3, Hu, Huse.
  assert (Hex : existsb (fun e => bool_decide (entry_unique_id e = tariff)) (hass w)
                = false).
  { destruct (existsb _ (hass w)) eqn:Hex; [|reflexivity].
    apply existsb_exists in Hex. destruct Hex as (e & He & Hb).
    apply bool_decide_eq_true in Hb. apply list_elem_of_In in He.
    destruct (Hfree e He Hb). }
  rewrite Hex. simpl. split; [reflexivity|].
  rewrite (api_token_step_verifies check d2 token _ Hd2), _async_verify_eq.
  unfold verify_result, after_verify, the_call, record_of. simpl.
  rewrite Huse, Hchk. simpl.
  apply String.eqb_neq in Hsrc. rewrite Hsrc.
  destruct name; [destruct (Hname eq_refl)|..]; repeat split; reflexivity.
Qed.

(** An instance: name, tariff and powers, then a token the validator
    accepts. *)
Lemma setup_two_steps_commit_witness :
  fst (async_step_api_token accept_all (Some {[ CONF_API_TOKEN := VStr "some-token" ]})
         (set_clock 5
            (snd (async_step_user accept_all VNone VNone VNone
                    (Some (<[ CONF_USE_API_TOKEN := VBool true ]> submit_without_token))
                    (mkWorld (new SOURCE_USER) [] 0 [] [])))))
  = inr (CREATE_ENTRY (VStr "PVPC")
           {[ CONF_NAME := VStr "PVPC";
              ATTR_TARIFF := VStr "2.0TD";
              ATTR_POWER := VFloat (33 # 10);
              ATTR_POWER_P3 := VFloat (33 # 10);
              CONF_API_TOKEN := VStr "some-token" ]}).
Proof.
  refine (proj1 (proj2 (setup_two_steps_commit accept_all VNone VNone VNone
            (<[ CONF_USE_API_TOKEN := VBool true ]> submit_without_token)
            {[ CONF_API_TOKEN := VStr "some-token" ]}
            (VStr "PVPC") (VStr "2.0TD") (VFloat (33 # 10)) (VFloat (33 # 10))
            (VBool true) (VStr "some-token") 5
            (mkWorld (new SOURCE_USER) [] 0 [] [])
            eq_refl eq_refl eq_refl eq_refl eq_refl eq_refl _ _ _ eq_refl eq_refl))).
  - discriminate.
  - discriminate.
  - intros e He. inversion He.
Defined.

(** ** The options flow across its two steps and across sessions *)

(** X10. The two steps of the options flow compose on a fresh handler:
    when the first form is submitted with [use_api_token] checked (and
    carries no token of its own), the token form is shown, prefilled
    with the entry's stored token; the token then submitted is saved
    together with the powers of the first form, under an empty
    title. *)
Theorem options_two_steps_commit
  (e : ConfigEntry) (d1 d2 : gmap string Value)
  (power power_p3 use token : Value) (w : World PVPCOptionsFlowHandler.t) :
  self w = async_get_options_flow e ->
  d1 !! ATTR_POWER = Some power ->
  d1 !! ATTR_POWER_P3 = Some power_p3 ->
  d1 !! CONF_USE_API_TOKEN = Some use ->
  truthy use = true ->
  d1 !! CONF_API_TOKEN = None ->
  d2 !! CONF_API_TOKEN = Some token ->
  truthy token = true ->
  let out1 := PVPCOptionsFlowHandler.async_step_init (Some d1) w in
  let out2 := PVPCOptionsFlowHandler.async_step_api_token (Some d2) (snd out1) in
  fst out1 = inr (FORM "api_token"
                    (Some [mkKey Required CONF_API_TOKEN
                             (PVPCOptionsFlowHandler.stored_token e) v_str])
                    ∅ {[ "mail_to_link" := _MAIL_TO_LINK ]})
  /\ fst out2 = inr (CREATE_ENTRY (VStr "")
                       {[ ATTR_POWER := power;
                          ATTR_POWER_P3 := power_p3;
                          CONF_API_TOKEN := token ]})
  /\ calls (snd out2) = calls w
  /\ hass (snd out2) = hass w.
Proof.
  intros Hself Hp Hp3 Hu Huse Hno Hd2 Htok out1 out2. subst out2 out1.
  assert (Hne : dict_truthy d2 = true).
  { destruct (dict_truthy d2) eqn:H; [reflexivity|].
    apply dict_truthy_false in H. subst d2. rewrite lookup_empty in Hd2.
    discriminate Hd2. }
  unfold PVPCOptionsFlowHandler.async_step_init,
    PVPCOptionsFlowHandler.async_step_api_token, dict_get.
  unfold_monad. simpl. rewrite Hp. simpl. rewrite Hp3. simpl. rewrite Hu. simpl.
  rewrite Huse. simpl. rewrite Hno. simpl.
  destruct (dict_truthy d1); simpl; rewrite Hself; simpl;
    rewrite Hne, Hd2; simpl; rewrite Htok; repeat split; reflexivity.
Qed.

(** An instance: new powers and a new token for the stored record. *)
Lemma options_two_steps_commit_witness :
  fst (PVPCOptionsFlowHandler.async_step_api_token
         (Some {[ CONF_API_TOKEN := VStr "new-token" ]})
         (snd (PVPCOptionsFlowHandler.async_step_init
                 (Some {[ ATTR_POWER := VFloat (46 # 10);
                          ATTR_POWER_P3 := VFloat (46 # 10);
                          CONF_USE_API_TOKEN := VBool true ]})
                 (mkWorld (async_get_options_flow stored_entry) [stored_entry] 0 [] []))))
  = inr (CREATE_ENTRY (VStr "")
           {[ ATTR_POWER := VFloat (46 # 10);
              ATTR_POWER_P3 := VFloat (46 # 10);
              CONF_API_TOKEN := VStr "new-token" ]}).
Proof.
  exact (proj1 (proj2 (options_two_steps_commit stored_entry
           {[ ATTR_POWER := VFloat (46 # 10); ATTR_POWER_P3 := VFloat (46 # 10);
              CONF_USE_API_TOKEN := VBool true ]}
           {[ CONF_API_TOKEN := VStr "new-token" ]}
           (VFloat (46 # 10)) (VFloat (46 # 10)) (VBool true) (VStr "new-token")
           (mkWorld (async_get_options_flow stored_entry) [stored_entry] 0 [] [])
           eq_refl eq_refl eq_refl eq_refl eq_refl eq_refl eq_refl eq_refl))).
Defined.

(** X11. What the options flow saves is what it shows next time. If an
    entry's options are the data some step of the options flow
    created, then reopening the options on that entry shows the first
    form prefilled with the saved powers and with [use_api_token]
    checked exactly when the saved token is not [None], whatever the
    entry's data holds: saved options, a saved [None] token included,
    take precedence over the data. *)
Theorem options_reopen_shows_saved
  (step_id : string) (user_input : option (gmap string Value))
  (w w' : World PVPCOptionsFlowHandler.t) (title : Value)
  (data : gmap string Value) (e : ConfigEntry) :
  fst (Host.handle_options step_id user_input w) = inr (CREATE_ENTRY title data) ->
  entry_options e = data ->
  self w' = async_get_options_flow e ->
  exists power power_p3 token,
    data = {[ ATTR_POWER := power; ATTR_POWER_P3 := power_p3; CONF_API_TOKEN := token ]}
    /\ PVPCOptionsFlowHandler.stored_token e = token
    /\ fst (PVPCOptionsFlowHandler.async_step_init None w')
       = inr (FORM "init"
                (Some [mkKey Required ATTR_POWER power VALID_POWER;
                       mkKey Required ATTR_POWER_P3 power_p3 VALID_POWER;
                       mkKey Required CONF_USE_API_TOKEN
                         (VBool (is_not_None token)) v_bool])
                ∅ ∅).
Proof.
  intros Hr He Hself.
  assert (Hshape : exists power power_p3 token,
             data = {[ ATTR_POWER := power; ATTR_POWER_P3 := power_p3;
                       CONF_API_TOKEN := token ]}).
  { revert Hr. options_cases; intros H; inversion H; subst;
      eexists _, _, _; reflexivity. }
  destruct Hshape as (power & power_p3 & token & ->).
  exists power, power_p3, token. split; [reflexivity|].
  unfold PVPCOptionsFlowHandler.async_step_init,
    PVPCOptionsFlowHandler.init_schema, PVPCOptionsFlowHandler.stored_token, dict_get.
  unfold_monad. simpl. rewrite Hself. simpl. rewrite He.
  split; reflexivity.
Qed.

(** An instance: the user unchecked the box in the options of the
    stored record, whose data still holds a token; the reopened form
    has the box unchecked. *)
Lemma options_reopen_shows_saved_witness :
  exists power power_p3 token,
    ({[ ATTR_POWER := VFloat (46 # 10); ATTR_POWER_P3 := VFloat (46 # 10);
        CONF_API_TOKEN := VNone ]} : gmap string Value)
    = {[ ATTR_POWER := power; ATTR_POWER_P3 := power_p3; CONF_API_TOKEN := token ]}
    /\ PVPCOptionsFlowHandler.stored_token
         (replace_options "entry-1"
            {[ ATTR_POWER := VFloat (46 # 10); ATTR_POWER_P3 := VFloat (46 # 10);
               CONF_API_TOKEN := VNone ]} stored_entry) = token
    /\ fst (PVPCOptionsFlowHandler.async_step_init None
              (mkWorld (async_get_options_flow
                          (replace_options "entry-1"
                             {[ ATTR_POWER := VFloat (46 # 10);
                                ATTR_POWER_P3 := VFloat (46 # 10);
                                CONF_API_TOKEN := VNone ]} stored_entry))
                       [] 0 [] []))
       = inr (FORM "init"
                (Some [mkKey Required ATTR_POWER power VALID_POWER;
                       mkKey Required ATTR_POWER_P3 power_p3 VALID_POWER;
                       mkKey Required CONF_USE_API_TOKEN
                         (VBool (is_not_None token)) v_bool])
                ∅ ∅).
Proof.
  exact (options_reopen_shows_saved "init"
           (Some {[ ATTR_POWER := VFloat (46 # 10); ATTR_POWER_P3 := VFloat (46 # 10);
                    CONF_USE_API_TOKEN := VBool false ]})
           (mkWorld (async_get_options_flow stored_entry) [stored_entry] 0 [] [])
           (mkWorld (async_get_options_flow
                       (replace_options "entry-1"
                          {[ ATTR_POWER := VFloat (46 # 10);
                             ATTR_POWER_P3 := VFloat (46 # 10);
                             CONF_API_TOKEN := VNone ]} stored_entry))
                    [] 0 [] [])
           (VStr "")
           {[ ATTR_POWER := VFloat (46 # 10); ATTR_POWER_P3 := VFloat (46 # 10);
              CONF_API_TOKEN := VNone ]}
           (replace_options "entry-1"
              {[ ATTR_POWER := VFloat (46 # 10); ATTR_POWER_P3 := VFloat (46 # 10);
                 CONF_API_TOKEN := VNone ]} stored_entry)
           eq_refl eq_refl eq_refl).
Defined.

(** ** A re-authentication from start to end *)

Lemma record_is_entry_with_token (entry_data : gmap string Value)
  (name tariff power power_p3 token : Value) :
  entry_data !! CONF_NAME = Some name ->
  entry_data !! ATTR_TARIFF = Some tariff ->
  entry_data !! ATTR_POWER = Some power ->
  entry_data !! ATTR_POWER_P3 = Some power_p3 ->
  dom entry_data ⊆ record_keys ->
  ({[ CONF_NAME := name; ATTR_TARIFF := tariff; ATTR_POWER := power;
      ATTR_POWER_P3 := power_p3; CONF_API_TOKEN := token ]} : gmap string Value)
  = <[ CONF_API_TOKEN := token ]> entry_data.
Proof.
  intros Hn Ht Hp Hp3 Hdom. apply map_eq. intros i.
  destruct (decide (i = CONF_API_TOKEN)) as [->|H5];
    [rewrite lookup_insert_eq; reflexivity|].
  rewrite (lookup_insert_ne entry_data) by auto.
  destruct (decide (i = CONF_NAME)) as [->|H1]; [rewrite Hn; reflexivity|].
  destruct (decide (i = ATTR_TARIFF)) as [->|H2]; [rewrite Ht; reflexivity|].
  destruct (decide (i = ATTR_POWER)) as [->|H3]; [rewrite Hp; reflexivity|].
  destruct (decide (i = ATTR_POWER_P3)) as [->|H4]; [rewrite Hp3; reflexivity|].
  rewrite !lookup_insert_ne, lookup_singleton_ne by auto.
  symmetry. apply not_elem_of_dom. intros Hi. apply Hdom in Hi.
  unfold record_keys in Hi.
  repeat (apply elem_of_union in Hi; destruct Hi as [Hi|Hi]);
    apply elem_of_singleton in Hi; contradiction.
Qed.

(** X12. A re-authentication changes nothing of a record but its
    token. Started on entry data with the keys of a record, and
    confirmed with a submission whose token the validator accepts (or
    with [use_api_token] unchecked), the flow asks the host for an
    update whose data is the entry data with [api_token] replaced: by
    the submitted token when the flag is checked, by [None] when it is
    not. The update names the entry [None]. *)
Theorem reauth_changes_only_token
  (check : Z -> Value -> bool) (entry_data d : gmap string Value)
  (use : Value) (now : Z) (w : World t) :
  is_Some (entry_data !! CONF_NAME) ->
  is_Some (entry_data !! ATTR_TARIFF) ->
  is_Some (entry_data !! ATTR_POWER) ->
  is_Some (entry_data !! ATTR_POWER_P3) ->
  dom entry_data ⊆ record_keys ->
  source (self w) = SOURCE_REAUTH ->
  d !! CONF_USE_API_TOKEN = Some use ->
  (truthy use = true -> check now (dict_get d CONF_API_TOKEN VNone) = true) ->
  let w1 := snd (async_step_reauth check entry_data w) in
  fst (async_step_reauth_confirm check (Some d) (set_clock now w1))
  = inr (UPDATE_RELOAD_ABORT None
           (<[ CONF_API_TOKEN := if truthy use
                                 then dict_get d CONF_API_TOKEN VNone
                                 else VNone ]> entry_data)).
Proof.
  intros [name Hn] [tariff Ht] [power Hp] [power_p3 Hp3] Hdom Hsrc Hu Hok w1.
  assert (Hne : dict_truthy d = true).
  { destruct (dict_truthy d) eqn:H; [reflexivity|].
    apply dict_truthy_false in H. subst d. rewrite lookup_empty in Hu.
    discriminate Hu. }
  rewrite (reauth_confirm_step_verifies check d use _ Hne Hu), _async_verify_eq.
  subst w1. unfold async_step_reauth, async_step_reauth_confirm.
  unfold_monad. simpl. rewrite Hn. simpl. rewrite Ht. simpl.
  rewrite Hp. simpl. rewrite Hp3. simpl.
  unfold verify_result, record_of. simpl. rewrite Hsrc, String.eqb_refl.
  destruct (truthy use) eqn:Huse; simpl.
  - rewrite (Hok eq_refl). simpl. do 2 f_equal.
    apply record_is_entry_with_token; assumption.
  - do 2 f_equal. apply record_is_entry_with_token; assumption.
Qed.

Lemma stored_entry_keys : dom (entry_data stored_entry) ⊆ record_keys.
Proof.
  unfold stored_entry, record_keys. simpl.
  rewrite !dom_insert_L, dom_singleton_L. reflexivity.
Qed.

(** An instance: the stored record re-authenticated with a new
    token. *)
Lemma reauth_changes_only_token_witness :
  fst (async_step_reauth_confirm accept_all
         (Some {[ CONF_USE_API_TOKEN := VBool true; CONF_API_TOKEN := VStr "new-token" ]})
         (set_clock 1
            (snd (async_step_reauth accept_all (entry_data stored_entry)
                    (mkWorld (new SOURCE_REAUTH) [stored_entry] 0 [] [])))))
  = inr (UPDATE_RELOAD_ABORT None
           (<[ CONF_API_TOKEN := VStr "new-token" ]> (entry_data stored_entry))).
Proof.
  exact (reauth_changes_only_token accept_all (entry_data stored_entry)
           {[ CONF_USE_API_TOKEN := VBool true; CONF_API_TOKEN := VStr "new-token" ]}
           (VBool true) 1 (mkWorld (new SOURCE_REAUTH) [stored_entry] 0 [] [])
           (ex_intro _ _ eq_refl) (ex_intro _ _ eq_refl) (ex_intro _ _ eq_refl)
           (ex_intro _ _ eq_refl) stored_entry_keys eq_refl eq_refl (fun _ => eq_refl)).
Defined.

(** ** Whole sessions *)

Section Sessions.

Variable check : Z -> Value -> bool.
Variables DEFAULT_NAME DEFAULT_TARIFF DEFAULT_POWER_KW : Value.

Abbreviation run' := (Host.run check DEFAULT_NAME DEFAULT_TARIFF DEFAULT_POWER_KW).
Abbreviation step' := (Host.configure check DEFAULT_NAME DEFAULT_TARIFF DEFAULT_POWER_KW).

Lemma settle_world {Obj} (cur_step : string) (out : (Exn + FlowResult) * World Obj) :
  world (settle cur_step out) = snd out.
Proof.
  destruct out as [[e|r] w0]; simpl; [destruct e|destruct r]; reflexivity.
Qed.

Lemma user_step_silent (user_input : option (gmap string Value)) (w : World t) :
  let out := async_step_user check DEFAULT_NAME DEFAULT_TARIFF DEFAULT_POWER_KW
               user_input w in
  calls (snd out) = calls w /\ exists new, steps (snd out) = (steps w ++ new)%list.
Proof.
  destruct user_input as [d|]; simpl.
  - rewrite async_step_user_eq. unfold user_result.
    repeat match goal with
           | |- context [match ?x !! ?k with _ => _ end] => destruct (x !! k)
           | |- context [if existsb ?f ?l then _ else _] => destruct (existsb f l)
           | |- context [if truthy ?v then _ else _] => destruct (truthy v)
           end; simpl; (split; [reflexivity|]);
      first [ exists ["user"]; reflexivity
            | exists ["user"; "api_token"]; rewrite <- app_assoc; reflexivity ].
  - split; [reflexivity|]. exists ["user"]. reflexivity.
Qed.

Lemma token_step_logged (user_input : option (gmap string Value)) (w : World t) :
  "api_token" ∈ steps (snd (async_step_api_token check user_input w)).
Proof.
  unfold async_step_api_token. unfold_monad. simpl.
  destruct user_input as [d|]; simpl.
  - destruct (d !! CONF_API_TOKEN); simpl.
    + rewrite _async_verify_eq. simpl. rewrite after_verify_steps. simpl.
      apply elem_of_app. left. apply elem_of_app. right. apply list_elem_of_here.
    + apply elem_of_app. right. apply list_elem_of_here.
  - apply elem_of_app. right. apply list_elem_of_here.
Qed.

Lemma silent_configure (f : Flow t) (ev : Z * option (gmap string Value)) :
  setup_trace f -> silent f -> silent (step' f ev).
Proof.
  intros Htr Hs. destruct f as [w st].
  destruct st as [cur_step| |]; [|exact Hs|exact Hs].
  destruct Htr as (us & ts & _ & _ & _ & _ & _ & Hst). simpl in Hst.
  unfold silent, Host.configure. simpl. rewrite settle_world.
  destruct Hst as [[-> _]|(-> & _)]; unfold Host.handle; simpl.
  - destruct (user_step_silent (snd ev) (set_clock (fst ev) w)) as (Hc & new & Hn).
    rewrite Hc, Hn. simpl. destruct Hs as [Hs|Hs]; [left; exact Hs|].
    right. apply elem_of_app. left. exact Hs.
  - right. apply token_step_logged.
Qed.

Lemma silent_run (f : Flow t) (evs : list (Z * option (gmap string Value))) :
  setup_trace f -> silent f -> silent (run' f evs).
Proof.
  revert f. induction evs as [|ev evs IH]; intros f Htr Hs; simpl; [exact Hs|].
  apply IH; [apply setup_trace_configure, Htr|apply silent_configure; assumption].
Qed.

End Sessions.

(** X13. A setup that never gets to the token form never contacts the
    validator: as long as the flow waits at the first form, and when
    it ends by committing a record with [use_api_token] unchecked, no
    validator call has been made in the whole session, whatever was
    submitted on the way. *)
Theorem setup_without_token_is_silent
  (check : Z -> Value -> bool) (DEFAULT_NAME DEFAULT_TARIFF DEFAULT_POWER_KW : Value)
  (store : list ConfigEntry) (now : Z) (evs : list (Z * option (gmap string Value))) :
  let f := Host.run check DEFAULT_NAME DEFAULT_TARIFF DEFAULT_POWER_KW
             (Host.start_setup check DEFAULT_NAME DEFAULT_TARIFF DEFAULT_POWER_KW
                store now) evs in
  status f = AtStep "user"
  \/ (exists r, status f = Committed r
                /\ truthy (_use_api_token (self (world f))) = false) ->
  calls (world f) = [].
Proof.
  intros f Hst.
  pose proof (setup_trace_start check DEFAULT_NAME DEFAULT_TARIFF DEFAULT_POWER_KW
                store now) as Htr0.
  pose proof (setup_trace_run check DEFAULT_NAME DEFAULT_TARIFF DEFAULT_POWER_KW
                _ evs Htr0) as Htr.
  assert (Hs0 : silent (Host.start_setup check DEFAULT_NAME DEFAULT_TARIFF
                          DEFAULT_POWER_KW store now))
    by (left; reflexivity).
  pose proof (silent_run check DEFAULT_NAME DEFAULT_TARIFF DEFAULT_POWER_KW
                _ evs Htr0 Hs0) as Hs.
  fold f in Htr, Hs.
  destruct Hs as [Hs|Hs]; [exact Hs|exfalso].
  destruct Htr as (us & ts & Hsteps & _ & Hus & _ & _ & Hcase).
  assert (Hts : ts = []).
  { destruct Hst as [Hst|(r & Hst & Hflag)]; rewrite Hst in Hcase.
    - destruct Hcase as [[_ Hts]|(Hd & _)]; [exact Hts|discriminate Hd].
    - destruct Hcase as (title & data & _ & _ & Hcase).
      rewrite Hflag in Hcase. exact (proj1 Hcase). }
  subst ts. rewrite app_nil_r in Hsteps. rewrite Hsteps in Hs.
  rewrite Forall_forall in Hus. specialize (Hus _ Hs). discriminate Hus.
Qed.

(** An instance: the session that commits from the first form. *)
Lemma setup_without_token_is_silent_witness :
  calls (world setup_session_without_token) = [].
Proof.
  apply (setup_without_token_is_silent reject_all VNone VNone VNone [] 0
           [(1%Z, Some submit_without_token)]).
  right. eexists. split; reflexivity.
Defined.

Section ReauthSessions.

Variable check : Z -> Value -> bool.
Variables DEFAULT_NAME DEFAULT_TARIFF DEFAULT_POWER_KW : Value.

Lemma reauth_trace_start (store : list ConfigEntry) (e : ConfigEntry) (now : Z) :
  reauth_trace store e (Host.start_reauth check store e now).
Proof.
  unfold reauth_trace, Host.start_reauth, async_step_reauth,
    async_step_reauth_confirm, first_missing.
  unfold_monad. simpl.
  destruct (entry_data e !! CONF_NAME); simpl;
    [|repeat split; right; split; [reflexivity|discriminate]].
  destruct (entry_data e !! ATTR_TARIFF); simpl;
    [|repeat split; right; split; [reflexivity|discriminate]].
  destruct (entry_data e !! ATTR_POWER); simpl;
    [|repeat split; right; split; [reflexivity|discriminate]].
  destruct (entry_data e !! ATTR_POWER_P3); simpl;
    [|repeat split; right; split; [reflexivity|discriminate]].
  repeat split. left. reflexivity.
Qed.

Lemma reauth_trace_verify (store : list ConfigEntry) (e : ConfigEntry) (w : World t) :
  source (self w) = SOURCE_REAUTH -> hass w = store ->
  reauth_trace store e
    (settle "reauth_confirm" (_async_verify check "reauth_confirm" w)).
Proof.
  intros Hsrc Hh. rewrite _async_verify_eq.
  unfold reauth_trace, verify_result, after_verify.
  rewrite Hsrc, String.eqb_refl.
  destruct (truthy (_use_api_token (self w)));
    [destruct (check (clock w) (_api_token (self w)))|]; simpl;
    repeat split; auto.
Qed.

Lemma reauth_trace_configure (store : list ConfigEntry) (e : ConfigEntry)
  (f : Flow t) (ev : Z * option (gmap string Value)) :
  reauth_trace store e f ->
  reauth_trace store e
    (Host.configure check DEFAULT_NAME DEFAULT_TARIFF DEFAULT_POWER_KW f ev).
Proof.
  intros Hf. destruct f as [w st].
  destruct st as [cur_step| |]; [|exact Hf|exact Hf].
  destruct Hf as (Hsrc & Hh & Hst). simpl in *.
  unfold Host.configure, Host.handle. simpl.
  destruct Hst as [->|[-> Hmiss]]; simpl.
  - destruct ev as [now [d|]]; simpl.
    + unfold async_step_reauth_confirm at 1. unfold_monad. simpl.
      destruct (dict_truthy d); simpl.
      * destruct (d !! CONF_USE_API_TOKEN); simpl.
        -- apply reauth_trace_verify; simpl; assumption.
        -- repeat split; auto; left; reflexivity.
      * repeat split; auto; left; reflexivity.
    + repeat split; auto; left; reflexivity.
  - repeat split; auto. right. split; [reflexivity|exact Hmiss].
Qed.

Lemma reauth_trace_run (store : list ConfigEntry) (e : ConfigEntry) (f : Flow t)
  (evs : list (Z * option (gmap string Value))) :
  reauth_trace store e f ->
  reauth_trace store e
    (Host.run check DEFAULT_NAME DEFAULT_TARIFF DEFAULT_POWER_KW f evs).
Proof.
  revert f. induction evs as [|ev evs IH]; intros f Hf; simpl; [exact Hf|].
  apply IH, reauth_trace_configure, Hf.
Qed.

End ReauthSessions.

(** X14. Whatever the user submits, and however often, a
    re-authentication session never creates an entry and never aborts:
    it waits at the confirmation form, or it has ended in one update
    request, for the entry [None], whose data is the flow's record. It
    is stuck at its entry step only when the entry data lacked one of
    name, tariff, power and power_p3. The flow's handlers leave the
    stored entries untouched throughout. *)
Theorem reauth_session_never_creates
  (check : Z -> Value -> bool) (DEFAULT_NAME DEFAULT_TARIFF DEFAULT_POWER_KW : Value)
  (store : list ConfigEntry) (e : ConfigEntry) (now : Z)
  (evs : list (Z * option (gmap string Value))) :
  let f := Host.run check DEFAULT_NAME DEFAULT_TARIFF DEFAULT_POWER_KW
             (Host.start_reauth check store e now) evs in
  hass (world f) = store
  /\ (forall title data, status f <> Committed (CREATE_ENTRY title data))
  /\ (forall reason, status f <> Aborted reason)
  /\ (forall r, status f = Committed r ->
        r = UPDATE_RELOAD_ABORT None (record_of (self (world f)))
        /\ dom (record_of (self (world f))) = record_keys)
  /\ (forall cur_step, status f = AtStep cur_step ->
        cur_step = "reauth_confirm"
        \/ (cur_step = "reauth"
            /\ first_missing [CONF_NAME; ATTR_TARIFF; ATTR_POWER; ATTR_POWER_P3]
                 (entry_data e) <> None)).
Proof.
  intros f.
  destruct (reauth_trace_run check DEFAULT_NAME DEFAULT_TARIFF DEFAULT_POWER_KW
              store e _ evs (reauth_trace_start check store e now))
    as (Hsrc & Hh & Hst).
  fold f in Hsrc, Hh, Hst.
  split; [exact Hh|].
  split; [intros title data H; rewrite H in Hst; discriminate Hst|].
  split; [intros reason H; rewrite H in Hst; exact Hst|].
  split; [intros r H; rewrite H in Hst; split; [exact Hst|apply record_dom]|].
  intros cur_step H. rewrite H in Hst. exact Hst.
Qed.
